(** * PySecretHitler: the game board of [secret_hitler/board.py]

    A shallow embedding of the [Board] class and a verification of its
    deck, roster, succession, win and state-diffing operations.

    Python methods mutate [self] and may raise; they are embedded in a
    state-and-exception monad [Py] whose state survives a raise, so that
    whatever a method wrote before raising is still visible afterwards. *)

From Stdlib Require Import ZArith Lia.
From stdpp Require Import base decidable option list strings gmap.

Local Open Scope string_scope.
Local Open Scope list_scope.

(** ** Enumerations *)

Inductive Tile := LIBERAL_POLICY | FASCIST_POLICY.

#[global] Instance Tile_eq_dec : EqDecision Tile.
Proof. solve_decision. Defined.

Definition Tile_value (t : Tile) : Z :=
  match t with LIBERAL_POLICY => 0 | FASCIST_POLICY => 1 end.

(** [Tile.__str__] *)
Definition Tile_str (t : Tile) : string :=
  if decide (Tile_value t = 0%Z) then "Liberal" else "Fascist".

Inductive PresidentialPower :=
  | INVESTIGATE_LOYALTY
  | CALL_SPECIAL_ELECTION
  | POLICY_PEEK
  | EXECUTION.

(** Modelled from the spec: [secret_hitler/player.py] is not part of the
    sources; the spec gives the roles as Liberal, Fascist and Hitler. *)
Inductive Identity := LIBERAL | FASCIST | HITLER.

#[global] Instance Identity_eq_dec : EqDecision Identity.
Proof. solve_decision. Defined.

(** Modelled from the spec: [secret_hitler/player.py] is not part of the
    sources; a player has an integer id (roster position at creation), a
    display name and a secret role that is assigned at game start.  The
    constructor call in [add_player] is [Player(id, name)]. *)
Record Player := mkPlayer {
  id : Z;
  name : string;
  identity : option Identity
}.

Definition Player_new (i : Z) (n : string) : Player :=
  {| id := i; name := n; identity := None |}.

Definition set_identity (r : Identity) (p : Player) : Player :=
  {| id := id p; name := name p; identity := Some r |}.

(** ** Exceptions

    The four [GameError] subclasses of the module, and the built-in
    exceptions the method bodies can run into. *)
Inductive Exn :=
  | DuplicatePlayerNameError (dup_name : string)
  | NonexistentPlayerNameError (player_name : string)
  | NonexistentTileError (tile : Tile)
  | InvalidNumPlayersError (num_players : nat)
  | NameError (var : string)
  | KeyError (key : string)
  | AttributeError (attr : string)
  | IndexError
  | TypeError
  | ZeroDivisionError.

Inductive Result (A : Type) :=
  | Return (a : A)
  | Raise (e : Exn).
Arguments Return {A} a.
Arguments Raise {A} e.

(** ** Module-level constants *)

(** num_players -> num_liberals, num_fascists, presidential_powers *)
Definition NUM_PLAYERS_TO_BOARD_CONFIG (n : nat)
  : option (nat * nat * list (option PresidentialPower)) :=
  match n with
  | 5 => Some (3, 1, [None; None; Some POLICY_PEEK;
                      Some EXECUTION; Some EXECUTION; None])
  | 6 => Some (4, 1, [None; None; Some POLICY_PEEK;
                      Some EXECUTION; Some EXECUTION; None])
  | 7 => Some (4, 2, [None; Some INVESTIGATE_LOYALTY; Some CALL_SPECIAL_ELECTION;
                      Some EXECUTION; Some EXECUTION; None])
  | 8 => Some (5, 2, [None; Some INVESTIGATE_LOYALTY; Some CALL_SPECIAL_ELECTION;
                      Some EXECUTION; Some EXECUTION; None])
  | 9 => Some (5, 3, [Some INVESTIGATE_LOYALTY; Some INVESTIGATE_LOYALTY;
                      Some CALL_SPECIAL_ELECTION;
                      Some EXECUTION; Some EXECUTION; None])
  | 10 => Some (6, 3, [Some INVESTIGATE_LOYALTY; Some INVESTIGATE_LOYALTY;
                       Some CALL_SPECIAL_ELECTION;
                       Some EXECUTION; Some EXECUTION; None])
  | _ => None
  end.

Definition LIBERAL_WINNING_PROGRESS : Z := 5.
Definition FASCIST_WINNING_PROGRESS : Z := 6.

(** The names bound in the module namespace of [board.py]: its imports,
    classes and constants.  A bare name inside a method body that is not
    a local of the method is looked up here (and then among the
    built-ins); names bound in the body of [class Board] are not in scope
    inside its methods. *)
Definition module_globals : list string :=
  [ "Enum"; "random"; "List"; "GameError"; "Player"; "Identity";
    "DuplicatePlayerNameError"; "NonexistentPlayerNameError";
    "NonexistentTileError"; "InvalidNumPlayersError";
    "Tile"; "PresidentialPower"; "NUM_PLAYERS_TO_BOARD_CONFIG";
    "LIBERAL_WINNING_PROGRESS"; "FASCIST_WINNING_PROGRESS"; "Board" ].

(** ** The board *)

(** The roster list owns the [Player] objects: [add_player] makes the only
    constructor call and appends the new object to [players].  Another
    attribute that holds a player holds a reference to such an object, not
    a copy of it; the reference is the object's seat in the roster, so that
    what is later assigned to an attribute of the object is seen through
    every reference to it. *)
Definition PlayerRef : Type := nat.

Record Board := mkBoard {
  players : list Player;               (* active players only *)
  eliminated_players : list Player;
  president_id : Z;
  chancellor : option PlayerRef;
  prev_president : option PlayerRef;
  prev_chancellor : option PlayerRef;
  nominated_chancellor : option PlayerRef;
  unused_tiles : list Tile;
  discarded_tiles : list Tile;
  drawn_tiles : list Tile;
  latest_policy : option Tile;
  liberal_progress : Z;
  fascist_progress : Z;
  fascist_powers : option (list (option PresidentialPower));
  updates : gset string                (* keeps track of updated properties *)
}.

(** Attribute assignment, one setter per attribute the methods write. *)
Definition set_players (v : list Player) (b : Board) : Board :=
  mkBoard v (eliminated_players b) (president_id b) (chancellor b)
    (prev_president b) (prev_chancellor b) (nominated_chancellor b)
    (unused_tiles b) (discarded_tiles b) (drawn_tiles b) (latest_policy b)
    (liberal_progress b) (fascist_progress b) (fascist_powers b) (updates b).

Definition set_president_id (v : Z) (b : Board) : Board :=
  mkBoard (players b) (eliminated_players b) v (chancellor b)
    (prev_president b) (prev_chancellor b) (nominated_chancellor b)
    (unused_tiles b) (discarded_tiles b) (drawn_tiles b) (latest_policy b)
    (liberal_progress b) (fascist_progress b) (fascist_powers b) (updates b).

Definition set_prev_president (v : option PlayerRef) (b : Board) : Board :=
  mkBoard (players b) (eliminated_players b) (president_id b) (chancellor b)
    v (prev_chancellor b) (nominated_chancellor b)
    (unused_tiles b) (discarded_tiles b) (drawn_tiles b) (latest_policy b)
    (liberal_progress b) (fascist_progress b) (fascist_powers b) (updates b).

Definition set_unused_tiles (v : list Tile) (b : Board) : Board :=
  mkBoard (players b) (eliminated_players b) (president_id b) (chancellor b)
    (prev_president b) (prev_chancellor b) (nominated_chancellor b)
    v (discarded_tiles b) (drawn_tiles b) (latest_policy b)
    (liberal_progress b) (fascist_progress b) (fascist_powers b) (updates b).

Definition set_discarded_tiles (v : list Tile) (b : Board) : Board :=
  mkBoard (players b) (eliminated_players b) (president_id b) (chancellor b)
    (prev_president b) (prev_chancellor b) (nominated_chancellor b)
    (unused_tiles b) v (drawn_tiles b) (latest_policy b)
    (liberal_progress b) (fascist_progress b) (fascist_powers b) (updates b).

Definition set_drawn_tiles (v : list Tile) (b : Board) : Board :=
  mkBoard (players b) (eliminated_players b) (president_id b) (chancellor b)
    (prev_president b) (prev_chancellor b) (nominated_chancellor b)
    (unused_tiles b) (discarded_tiles b) v (latest_policy b)
    (liberal_progress b) (fascist_progress b) (fascist_powers b) (updates b).

Definition set_latest_policy (v : option Tile) (b : Board) : Board :=
  mkBoard (players b) (eliminated_players b) (president_id b) (chancellor b)
    (prev_president b) (prev_chancellor b) (nominated_chancellor b)
    (unused_tiles b) (discarded_tiles b) (drawn_tiles b) v
    (liberal_progress b) (fascist_progress b) (fascist_powers b) (updates b).

Definition set_liberal_progress (v : Z) (b : Board) : Board :=
  mkBoard (players b) (eliminated_players b) (president_id b) (chancellor b)
    (prev_president b) (prev_chancellor b) (nominated_chancellor b)
    (unused_tiles b) (discarded_tiles b) (drawn_tiles b) (latest_policy b)
    v (fascist_progress b) (fascist_powers b) (updates b).

Definition set_fascist_progress (v : Z) (b : Board) : Board :=
  mkBoard (players b) (eliminated_players b) (president_id b) (chancellor b)
    (prev_president b) (prev_chancellor b) (nominated_chancellor b)
    (unused_tiles b) (discarded_tiles b) (drawn_tiles b) (latest_policy b)
    (liberal_progress b) v (fascist_powers b) (updates b).

Definition set_fascist_powers (v : option (list (option PresidentialPower)))
    (b : Board) : Board :=
  mkBoard (players b) (eliminated_players b) (president_id b) (chancellor b)
    (prev_president b) (prev_chancellor b) (nominated_chancellor b)
    (unused_tiles b) (discarded_tiles b) (drawn_tiles b) (latest_policy b)
    (liberal_progress b) (fascist_progress b) v (updates b).

Definition set_updates (v : gset string) (b : Board) : Board :=
  mkBoard (players b) (eliminated_players b) (president_id b) (chancellor b)
    (prev_president b) (prev_chancellor b) (nominated_chancellor b)
    (unused_tiles b) (discarded_tiles b) (drawn_tiles b) (latest_policy b)
    (liberal_progress b) (fascist_progress b) (fascist_powers b) v.

(** ** Python list primitives *)

(** [l[i]] for an integer index: negative indices count from the end. *)
Definition py_index {A} (l : list A) (i : Z) : option A :=
  if (0 <=? i)%Z then l !! Z.to_nat i
  else if (- Z.of_nat (length l) <=? i)%Z
       then l !! Z.to_nat (Z.of_nat (length l) + i)
       else None.

(** The position [l[i]] reads, when there is one. *)
Definition py_seat {A} (l : list A) (i : Z) : option nat :=
  if (0 <=? i)%Z
  then if decide (Z.to_nat i < length l)%nat then Some (Z.to_nat i) else None
  else if (- Z.of_nat (length l) <=? i)%Z
       then Some (Z.to_nat (Z.of_nat (length l) + i))
       else None.

(** The player a reference held by the board points to. *)
Definition the_player (b : Board) (r : option PlayerRef) : option Player :=
  match r with
  | Some seat => players b !! seat
  | None => None
  end.

(** [l.remove(x)]: drops the first occurrence of [x]. *)
Fixpoint py_remove {A} `{EqDecision A} (x : A) (l : list A) : list A :=
  match l with
  | [] => []
  | y :: l' => if decide (x = y) then l' else y :: py_remove x l'
  end.

(** ** Arguments of [extract_updates]

    What a caller can pass for [custom_updates] besides [None]: a sized
    collection of names (list, tuple, set, dict, keys view, str), which is
    falsy when empty; an iterator or generator, which is truthy whatever it
    yields; or an object that cannot be iterated, truthy or falsy. *)
Inductive Iterable :=
  | Sized (items : list string)
  | Iterator (items : list string)
  | Scalar (is_true : bool).

#[global] Instance Iterable_eq_dec : EqDecision Iterable.
Proof. solve_decision. Defined.

(** [bool(arg)] *)
Definition truthy (arg : Iterable) : bool :=
  match arg with
  | Sized items => bool_decide (items ≠ [])
  | Iterator _ => true
  | Scalar is_true => is_true
  end.

(** [iter(arg)], run to its end. *)
Definition iter (arg : Iterable) : Result (list string) :=
  match arg with
  | Sized items | Iterator items => Return items
  | Scalar _ => Raise TypeError
  end.

(** ** The random source

    [random.shuffle] permutes a list in place using the interpreter's
    generator.  The generator is taken as a parameter: any state type with
    a shuffle that returns a permutation of its argument. *)
Class RandomSource := {
  Rng : Type;
  shuffle : ∀ {A : Type}, list A → Rng → list A * Rng;
  shuffle_perm : ∀ (A : Type) (l : list A) (g : Rng), (shuffle l g).1 ≡ₚ l
}.

(** A deterministic source for running examples: the state is a counter and
    a shuffle rotates the list by it. *)
Definition rotate_shuffle {A} (l : list A) (g : nat) : list A * nat :=
  (drop (g `mod` length l) l ++ take (g `mod` length l) l, S g).

Definition rotating : RandomSource.
Proof.
  refine {| Rng := nat; shuffle := @rotate_shuffle |}.
  intros A l g. unfold rotate_shuffle; simpl.
  rewrite Permutation_app_comm. by rewrite take_drop.
Defined.

(** ** Values handed to clients

    What [getattr(self, prop)] and the entries of
    [private_state_translations] can produce. *)
Inductive Value :=
  | VNone
  | VInt (z : Z)
  | VStrList (l : list string)
  | VStrSet (s : gset string)
  | VPlayer (p : Player)
  | VPlayerList (l : list Player)
  | VTile (t : Tile)
  | VTileList (l : list Tile)
  | VPowerList (l : list (option PresidentialPower))
  | VClassAttr (attr : string).

Definition of_option {A} (inj : A → Value) (o : option A) : Value :=
  match o with Some a => inj a | None => VNone end.

(** Names bound in the body of [class Board]: reachable as attributes of an
    instance, not as bare names. *)
Definition class_attrs : list string :=
  [ "__init__"; "private_state_translations"; "register_update";
    "extract_updates"; "get_full_state"; "add_player"; "get_player";
    "begin_game"; "get_president"; "advance_president"; "draw_three_tiles";
    "discard_tile"; "get_winner"; "get_current_presidential_power" ].

(** [getattr(self, prop)]: the instance attributes set by [__init__], then
    the class attributes. *)
Definition getattr (self : Board) (prop : string) : Result Value :=
  if decide (prop = "players") then Return (VPlayerList (players self))
  else if decide (prop = "eliminated_players")
    then Return (VPlayerList (eliminated_players self))
  else if decide (prop = "president_id") then Return (VInt (president_id self))
  else if decide (prop = "chancellor")
    then Return (of_option VPlayer (the_player self (chancellor self)))
  else if decide (prop = "prev_president")
    then Return (of_option VPlayer (the_player self (prev_president self)))
  else if decide (prop = "prev_chancellor")
    then Return (of_option VPlayer (the_player self (prev_chancellor self)))
  else if decide (prop = "nominated_chancellor")
    then Return (of_option VPlayer (the_player self (nominated_chancellor self)))
  else if decide (prop = "unused_tiles") then Return (VTileList (unused_tiles self))
  else if decide (prop = "discarded_tiles")
    then Return (VTileList (discarded_tiles self))
  else if decide (prop = "drawn_tiles") then Return (VTileList (drawn_tiles self))
  else if decide (prop = "latest_policy")
    then Return (of_option VTile (latest_policy self))
  else if decide (prop = "liberal_progress")
    then Return (VInt (liberal_progress self))
  else if decide (prop = "fascist_progress")
    then Return (VInt (fascist_progress self))
  else if decide (prop = "fascist_powers")
    then Return (of_option VPowerList (fascist_powers self))
  else if decide (prop = "updates") then Return (VStrSet (updates self))
  else if decide (prop ∈ class_attrs) then Return (VClassAttr prop)
  else Raise (AttributeError prop).

(** The lambdas of the translation table.  Each is modelled on the type of
    the attribute its key names; applied to a value of another type the
    model answers [TypeError]. *)
Definition Translation : Type := Board → Value → Result Value.

(** [lambda me,l: [p.name for p in l]] *)
Definition names_of : Translation := λ me v,
  match v with
  | VPlayerList l => Return (VStrList (name <$> l))
  | _ => Raise TypeError
  end.

(** [lambda me,id: me.players[id]] *)
Definition player_at : Translation := λ me v,
  match v with
  | VInt i =>
      match py_index (players me) i with
      | Some p => Return (VPlayer p)
      | None => Raise IndexError
      end
  | _ => Raise TypeError
  end.

(** [lambda me,l: len(l)] *)
Definition len_of : Translation := λ me v,
  match v with
  | VTileList l => Return (VInt (Z.of_nat (length l)))
  | _ => Raise TypeError
  end.

(** [lambda me,l: [str(t) for t in l]] *)
Definition strs_of : Translation := λ me v,
  match v with
  | VTileList l => Return (VStrList (Tile_str <$> l))
  | _ => Raise TypeError
  end.

(** The class attribute [Board.private_state_translations], in the order
    the dict literal lists its keys. *)
Definition private_state_translations : list (string * option Translation) :=
  [ ("players", Some names_of);
    ("eliminated_players", Some names_of);
    ("president", Some player_at);
    ("chancellor", None);
    ("nominated_chancellor", None);
    ("unused_tiles", Some len_of);
    ("discarded_tiles", Some len_of);
    ("drawn_tiles", Some strs_of);
    ("liberal_progress", None);
    ("fascist_progress", None) ].

(** [d[k]] on a dict given by its items. *)
Fixpoint dict_get {V} (k : string) (d : list (string * V)) : option V :=
  match d with
  | [] => None
  | (k', v) :: d' => if decide (k = k') then Some v else dict_get k d'
  end.

(** ** The monad of method bodies *)

Section Engine.
Context {RS : RandomSource}.

(** The interpreter state a method can touch: the board object and the
    generator behind [random]. *)
Record World := mkWorld { board : Board; rng : Rng }.

Definition Py (A : Type) : Type := World → Result A * World.

#[local] Instance Py_ret : MRet Py := λ A a w, (Return a, w).

(** An exception skips the continuation and keeps the state reached. *)
#[local] Instance Py_bind : MBind Py := λ A B f m w,
  match m w with
  | (Return a, w') => f a w'
  | (Raise e, w') => (Raise e, w')
  end.

Definition raise {A} (e : Exn) : Py A := λ w, (Raise e, w).

Definition lift {A} (r : Result A) : Py A := λ w, (r, w).

Definition get_self : Py Board := λ w, (Return (board w), w).

Definition modify_self (f : Board → Board) : Py unit :=
  λ w, (Return tt, mkWorld (f (board w)) (rng w)).

(** [random.shuffle(l)], returning the list as shuffled in place. *)
Definition random_shuffle {A} (l : list A) : Py (list A) :=
  λ w, (Return (shuffle l (rng w)).1, mkWorld (board w) (shuffle l (rng w)).2).

(** Reading a bare name: [v] is its binding when the module has one, and
    [NameError] is raised when it has none ([v] is then never returned). *)
Definition load_global {A} (x : string) (v : A) : Py A :=
  if decide (x ∈ module_globals) then mret v else raise (NameError x).

(** [for x in l: body], threading the variables the body assigns. *)
Fixpoint for_each {A S} (l : list A) (body : S → A → Py S) (s : S) : Py S :=
  match l with
  | [] => mret s
  | x :: l' => s' ← body s x; for_each l' body s'
  end.

(** ** The methods of [Board] *)

(** [Board.__init__] *)
Definition Board_init (g : Rng) : World :=
  let tiles := replicate 6 LIBERAL_POLICY ++ replicate 11 FASCIST_POLICY in
  {| board :=
       {| players := [];
          eliminated_players := [];
          president_id := 0;
          chancellor := None;
          prev_president := None;
          prev_chancellor := None;
          nominated_chancellor := None;
          unused_tiles := (shuffle tiles g).1;
          discarded_tiles := [];
          drawn_tiles := [];
          latest_policy := None;
          liberal_progress := 0;
          fascist_progress := 0;
          fascist_powers := None;
          updates := ∅ |};
     rng := (shuffle tiles g).2 |}.

Definition register_update (prop : string) : Py unit :=
  modify_self (λ b, set_updates ({[prop]} ∪ updates b) b).

(** One pass of the loop of [extract_updates].  The body names the
    translation table by the bare name [private_state_translations], which
    only the class body binds; the table of the class is what the read
    would give if the module bound the name. *)
Definition extract_one (response : gmap string Value) (prop : string)
  : Py (gmap string Value) :=
  table ← load_global "private_state_translations" private_state_translations;
  match dict_get prop table with
  | None => raise (KeyError prop)
  | Some (Some _) =>
      self ← get_self;
      v ← lift (getattr self prop);
      mret (<[prop := v]> response)
  | Some None =>
      (* the callee evaluates to None; the arguments are evaluated, then
         the call fails *)
      self ← get_self;
      _ ← lift (getattr self prop);
      raise TypeError
  end.

(** [custom_updates or self.updates], then the [iter] of the [for]
    statement: an absent or falsy argument falls back to the pending set,
    and a truthy one that cannot be iterated raises [TypeError]. *)
Definition items_to_report (custom_updates : option Iterable) (self : Board)
  : Result (list string) :=
  match custom_updates with
  | Some arg =>
      if truthy arg then iter arg else Return (elements (updates self))
  | None => Return (elements (updates self))
  end.

Definition extract_updates (custom_updates : option Iterable)
  : Py (gmap string Value) :=
  self ← get_self;
  new_updates ← lift (items_to_report custom_updates self);
  response ← for_each new_updates extract_one ∅;
  modify_self (set_updates ∅);;
  mret response.

(** The arguments of the call are evaluated first, the second one through
    the bare name [private_state_translations]; the call itself passes one
    positional argument more than [extract_updates] accepts. *)
Definition get_full_state : Py (gmap string Value) :=
  _ ← load_global "private_state_translations" private_state_translations;
  raise TypeError.

Definition add_player (nm : string) : Py unit :=
  register_update "players";;
  self ← get_self;
  if existsb (λ p, bool_decide (name p = nm)) (players self)
  then raise (DuplicatePlayerNameError nm)
  else modify_self (λ b,
         set_players
           (players b ++ [Player_new (Z.of_nat (length (players b))) nm]) b).

Definition get_player (nm : string) : Py Player :=
  self ← get_self;
  match find (λ p, bool_decide (name p = nm)) (players self) with
  | Some p => mret p
  | None => raise (NonexistentPlayerNameError nm)
  end.

Definition begin_game : Py unit :=
  register_update "players";;
  register_update "fascist_powers";;
  self ← get_self;
  config ← load_global "NUM_PLAYERS_TO_BOARD_CONFIG" NUM_PLAYERS_TO_BOARD_CONFIG;
  match config (length (players self)) with
  | None => raise (InvalidNumPlayersError (length (players self)))
  | Some (num_liberals, num_fascists, powers) =>
      identities ← random_shuffle (replicate num_liberals LIBERAL
                                   ++ replicate num_fascists FASCIST
                                   ++ [HITLER]);
      for_each (seq 0 (length (players self)))
        (λ _ i,
           match identities !! i with
           | None => raise IndexError
           | Some r =>
               modify_self (λ b,
                 set_players (alter (set_identity r) i (players b)) b)
           end) tt;;
      modify_self (set_fascist_powers (Some powers))
  end.

Definition get_president : Py Player :=
  self ← get_self;
  match py_index (players self) (president_id self) with
  | Some p => mret p
  | None => raise IndexError
  end.

(** [prev_president] is bound to the object [get_president] returns, that is
    to the seat it was read from.  The right-hand side of the last
    assignment reads the bare name [president_id], not
    [self.president_id]. *)
Definition advance_president : Py unit :=
  register_update "president_id";;
  _ ← get_president;
  modify_self (λ b,
    set_prev_president (py_seat (players b) (president_id b)) b);;
  self ← get_self;
  i ← load_global "president_id" (president_id self);
  if decide (length (players self) = 0%nat) then raise ZeroDivisionError
  else modify_self
         (set_president_id ((i + 1) `mod` Z.of_nat (length (players self)))).

Definition draw_three_tiles : Py unit :=
  self ← get_self;
  (if decide (length (unused_tiles self) < 3)%nat then
     (* shuffle discarded tiles and put under unused tiles *)
     shuffled ← random_shuffle (discarded_tiles self);
     modify_self (set_discarded_tiles shuffled);;
     modify_self (λ b, set_unused_tiles (unused_tiles b ++ discarded_tiles b) b);;
     modify_self (set_discarded_tiles []);;
     register_update "unused_tiles";;
     register_update "discarded_tiles"
   else mret tt);;
  modify_self (λ b, set_drawn_tiles (take 3 (unused_tiles b)) b);;
  modify_self (λ b, set_unused_tiles (drop 3 (unused_tiles b)) b);;
  register_update "drawn_tiles";;
  register_update "unused_tiles".

Definition discard_tile (tile : Tile) : Py unit :=
  self ← get_self;
  if decide (tile ∉ drawn_tiles self) then raise (NonexistentTileError tile)
  else
    modify_self (λ b, set_drawn_tiles (py_remove tile (drawn_tiles b)) b);;
    modify_self (λ b, set_discarded_tiles (discarded_tiles b ++ [tile]) b);;
    register_update "drawn_tiles";;
    register_update "discarded_tiles";;
    self ← get_self;
    if decide (length (drawn_tiles self) = 1%nat) then
      (* enact policy *)
      match drawn_tiles self !! 0%nat with
      | None => raise IndexError
      | Some policy =>
          modify_self (set_latest_policy (Some policy));;
          (if decide (policy = LIBERAL_POLICY)
           then modify_self (λ b, set_liberal_progress (liberal_progress b + 1) b)
           else mret tt);;
          (if decide (policy = FASCIST_POLICY)
           then modify_self (λ b, set_fascist_progress (fascist_progress b + 1) b)
           else mret tt);;
          (* destroy enacted tile (do not put back into any tile list) *)
          modify_self (set_drawn_tiles []);;
          register_update "drawn_tiles"
      end
    else mret tt.

Definition get_winner : Py (option Tile) :=
  self ← get_self;
  liberal_goal ← load_global "LIBERAL_WINNING_PROGRESS" LIBERAL_WINNING_PROGRESS;
  if decide (liberal_progress self = liberal_goal)
  then mret (Some LIBERAL_POLICY)
  else
    fascist_goal ← load_global "FASCIST_WINNING_PROGRESS" FASCIST_WINNING_PROGRESS;
    if decide (fascist_progress self = fascist_goal)
    then mret (Some FASCIST_POLICY)
    else mret None.

Definition get_current_presidential_power : Py (option PresidentialPower) :=
  self ← get_self;
  if decide (latest_policy self ≠ Some FASCIST_POLICY) then mret None
  else if decide (fascist_progress self = 0%Z) then mret None
  else
    match fascist_powers self with
    | None => raise TypeError
    | Some powers =>
        match py_index powers (fascist_progress self - 1) with
        | Some power => mret power
        | None => raise IndexError
        end
    end.

End Engine.

(** ** Driving a board

    The public operations as one type of calls.  A caller that catches the
    exception of a failed call goes on with the board as the call left it. *)
Inductive Call :=
  | AddPlayer (nm : string)
  | GetPlayer (nm : string)
  | BeginGame
  | DrawThreeTiles
  | DiscardTile (tile : Tile)
  | AdvancePresident
  | GetWinner
  | GetCurrentPresidentialPower
  | ExtractUpdates (custom_updates : option Iterable)
  | GetFullState.

Section Driver.
Context {RS : RandomSource}.

#[local] Existing Instances Py_ret Py_bind.

Definition void {A} (m : Py A) : Py unit := _ ← m; mret tt.

Definition call (c : Call) : Py unit :=
  match c with
  | AddPlayer nm => add_player nm
  | GetPlayer nm => void (get_player nm)
  | BeginGame => begin_game
  | DrawThreeTiles => draw_three_tiles
  | DiscardTile tile => discard_tile tile
  | AdvancePresident => advance_president
  | GetWinner => void get_winner
  | GetCurrentPresidentialPower => void get_current_presidential_power
  | ExtractUpdates custom_updates => void (extract_updates custom_updates)
  | GetFullState => void get_full_state
  end.

Definition step (w : World) (c : Call) : World := (call c w).2.

Definition run (cs : list Call) (w : World) : World := foldl step w cs.

(** Number of tiles in the three piles. *)
Definition tiles_in_piles (w : World) : nat :=
  length (unused_tiles (board w)) + length (discarded_tiles (board w))
  + length (drawn_tiles (board w)).

(** A call enacts a policy when it is a discard of a drawn tile that leaves
    exactly one tile in the drawn pile. *)
Definition enacts (w : World) (c : Call) : bool :=
  match c with
  | DiscardTile tile =>
      bool_decide (tile ∈ drawn_tiles (board w))
      && bool_decide (length (py_remove tile (drawn_tiles (board w))) = 1%nat)
  | _ => false
  end.

(** Enactments along a run. *)
Fixpoint enacted_count (cs : list Call) (w : World) : nat :=
  match cs with
  | [] => 0
  | c :: cs' => (if enacts w c then 1 else 0) + enacted_count cs' (step w c)
  end.

Definition is_deck_call (c : Call) : bool :=
  match c with DrawThreeTiles | DiscardTile _ => true | _ => false end.

(** Every draw of the run finds the drawn pile empty. *)
Fixpoint draws_on_empty (cs : list Call) (w : World) : bool :=
  match cs with
  | [] => true
  | c :: cs' =>
      match c with
      | DrawThreeTiles => bool_decide (drawn_tiles (board w) = [])
      | _ => true
      end && draws_on_empty cs' (step w c)
  end.

(** The pool a draw is served from: the unused pile, with the shuffled
    discards under it when it holds fewer than three tiles. *)
Definition draw_pool (w : World) : list Tile :=
  if decide (length (unused_tiles (board w)) < 3)%nat
  then unused_tiles (board w) ++ (shuffle (discarded_tiles (board w)) (rng w)).1
  else unused_tiles (board w).

(** A computation that leaves both progress counters as it found them,
    whether it returns or raises. *)
Definition keeps_progress {A} (m : Py A) : Prop :=
  ∀ w, liberal_progress (board (m w).2) = liberal_progress (board w)
     ∧ fascist_progress (board (m w).2) = fascist_progress (board w).

End Driver.

(** ** Views of a board

    Relations between the board a call is given and the board it leaves,
    and the quantities the roster and the deck are measured by. *)

(** The two boards agree on a view. *)
Definition same_on {X} (view : Board → X) : relation Board :=
  λ b b', view b = view b'.

(** The roster but for the secret roles. *)
Definition seating_view (b : Board) :=
  (name <$> players b, id <$> players b, eliminated_players b, president_id b).

(** The deck and what has been enacted from it. *)
Definition deck_view (b : Board) :=
  (unused_tiles b, discarded_tiles b, drawn_tiles b, latest_policy b,
   liberal_progress b, fascist_progress b).

(** The pending set only gains names. *)
Definition pending_grows : relation Board :=
  λ b b', updates b ⊆ updates b'.

(** Tiles of one kind in a pile. *)
Definition count_kind (t : Tile) (l : list Tile) : nat :=
  length (filter (λ x, x = t) l).

Definition progress_of (t : Tile) (b : Board) : Z :=
  match t with
  | LIBERAL_POLICY => liberal_progress b
  | FASCIST_POLICY => fascist_progress b
  end.

(** Tiles of one kind in the three piles, plus those enacted. *)
Definition kind_total (t : Tile) (b : Board) : Z :=
  (Z.of_nat (count_kind t (unused_tiles b ++ discarded_tiles b ++ drawn_tiles b))
   + progress_of t b)%Z.

(** A roster as the methods build it: distinct names, ids that are the
    seats, nobody eliminated, the first seat presiding. *)
Definition roster_ok (b : Board) : Prop :=
  NoDup (name <$> players b)
  ∧ id <$> players b = Z.of_nat <$> seq 0 (length (players b))
  ∧ eliminated_players b = []
  ∧ president_id b = 0%Z.


(** [extract_updates] has nothing to iterate over: it is given an iterator
    that yields nothing, or no truthy argument while nothing is pending. *)
Definition nothing_to_report (custom_updates : option Iterable) (b : Board)
  : Prop :=
  custom_updates = Some (Iterator [])
  ∨ (match custom_updates with Some arg => truthy arg = false | None => True end
     ∧ updates b = ∅).

(** What the loop of [begin_game] does to seat [i], and to the roster. *)
Definition assign (identities : list Identity) (i : nat) (p : Player) : Player :=
  match identities !! i with
  | Some r => set_identity r p
  | None => p
  end.

Definition assigned (identities : list Identity) (seats : list nat)
    (ps : list Player) : list Player :=
  foldl (λ ps i, alter (assign identities i) i ps) ps seats.

(** The roles [begin_game] deals for a table entry. *)
Definition roles_of (num_liberals num_fascists : nat) : list Identity :=
  replicate num_liberals LIBERAL ++ replicate num_fascists FASCIST ++ [HITLER].

Section Views.
Context {RS : RandomSource}.

(** Every outcome of the computation, returned or raised, leaves a board
    related by [R] to the one it started from. *)
Definition respects (R : relation Board) {A} (m : Py A) : Prop :=
  ∀ w, R (board w) (board (m w).2).

End Views.

(** * Runs on the rotating source *)

(** The fresh board for counter 4 starts its unused pile with two Liberal
    tiles and a Fascist one. *)
Definition fresh_board : @World rotating := Board_init (4 : @Rng rotating).

(** One legislative session and the start of the next. *)
Definition session : list Call :=
  [ DrawThreeTiles; DiscardTile LIBERAL_POLICY; DiscardTile LIBERAL_POLICY;
    DrawThreeTiles; DiscardTile FASCIST_POLICY ].

(** A draw issued on top of a draw. *)
Definition redraw : list Call := [ DrawThreeTiles; DrawThreeTiles ].

(** A session after the president's discard: a Liberal and a Fascist tile
    are left in the drawn pile. *)
Definition two_left : @World rotating :=
  run [ DrawThreeTiles; DiscardTile LIBERAL_POLICY ] fresh_board.

(** Five draws in a row leave two tiles in the unused pile and none in the
    discard pile. *)
Definition nearly_empty : @World rotating :=
  run (replicate 5 DrawThreeTiles) fresh_board.

(** A board on which both tracks are full. *)
Definition both_tracks_full : @World rotating :=
  {| board :=
       set_liberal_progress 5 (set_fascist_progress 6 (board fresh_board));
     rng := rng fresh_board |}.

(** Seven players seated on the fresh board. *)
Definition seven_seated : @World rotating :=
  run (AddPlayer <$> ["ann"; "ben"; "cat"; "dan"; "eve"; "fay"; "gus"])
    fresh_board.

(** The seven begin the game and hold one session, which enacts a Fascist
    policy. *)
Definition first_fascist_enacted : @World rotating :=
  run session (step seven_seated BeginGame).

(** The seven are seated, a succession is attempted, which records the
    first of them as previous president, and then the game begins. *)
Definition begun_after_succession : @World rotating :=
  run [AdvancePresident; BeginGame] seven_seated.

(** One player is added and the updates are then extracted for an iterator
    that yields nothing. *)
Definition extracted_for_nothing : @World rotating :=
  run [AddPlayer "ann"; ExtractUpdates (Some (Iterator []))] fresh_board.

(** * Properties *)

Section Properties.
Context {RS : RandomSource}.

#[local] Existing Instances Py_ret Py_bind.

Ltac py_unfold :=
  unfold void, mbind, mret, Py_bind, Py_ret, raise, lift, get_self,
    modify_self, register_update, random_shuffle in *.

Ltac py_simpl := py_unfold; simpl in *.

(** *** Name resolution *)

Lemma load_global_bound {A} x (v : A) w :
  x ∈ module_globals → load_global x v w = (Return v, w).
Proof. intros Hin. unfold load_global. by rewrite decide_True. Qed.

Lemma load_global_unbound {A} x (v : A) w :
  x ∉ module_globals → load_global x v w = (Raise (NameError x), w).
Proof. intros Hout. unfold load_global. by rewrite decide_False. Qed.

Lemma translations_unbound : "private_state_translations" ∉ module_globals.
Proof. compute_done. Qed.

Lemma president_id_unbound : "president_id" ∉ module_globals.
Proof. compute_done. Qed.

Lemma config_bound : "NUM_PLAYERS_TO_BOARD_CONFIG" ∈ module_globals.
Proof. compute_done. Qed.

Lemma liberal_goal_bound : "LIBERAL_WINNING_PROGRESS" ∈ module_globals.
Proof. compute_done. Qed.

Lemma fascist_goal_bound : "FASCIST_WINNING_PROGRESS" ∈ module_globals.
Proof. compute_done. Qed.

(** From here on a read of a bare name is resolved by the two lemmas above. *)
Opaque load_global.

(** *** Python's [remove] *)

Lemma py_remove_length (x : Tile) l :
  x ∈ l → S (length (py_remove x l)) = length l.
Proof.
  induction l as [|y l IH]; intros Hin; [by apply elem_of_nil in Hin|].
  simpl. destruct (decide (x = y)) as [->|Hne]; [done|].
  apply elem_of_cons in Hin as [?|Hin]; [done|].
  simpl. by rewrite IH.
Qed.

Lemma shuffle_length {A} (l : list A) g : length (shuffle l g).1 = length l.
Proof. by rewrite shuffle_perm. Qed.

(** *** The deck *)

(** What a draw does, pile by pile; it touches nothing else that the
    properties below speak of. *)
Lemma draw_three_tiles_run w :
  ∃ w', draw_three_tiles w = (Return tt, w')
    ∧ drawn_tiles (board w') = take 3 (draw_pool w)
    ∧ unused_tiles (board w') = drop 3 (draw_pool w)
    ∧ discarded_tiles (board w') =
        (if decide (length (unused_tiles (board w)) < 3)%nat
         then [] else discarded_tiles (board w))
    ∧ liberal_progress (board w') = liberal_progress (board w)
    ∧ fascist_progress (board w') = fascist_progress (board w)
    ∧ latest_policy (board w') = latest_policy (board w).
Proof.
  destruct w as [b g]. unfold draw_three_tiles, draw_pool. py_simpl.
  destruct (decide (length (unused_tiles b) < 3)%nat);
    simpl; eexists; (split; [reflexivity|]); simpl; by repeat split.
Qed.

(** A discard of a tile that is not drawn raises and writes nothing. *)
Lemma discard_tile_absent tile w :
  tile ∉ drawn_tiles (board w) →
  discard_tile tile w = (Raise (NonexistentTileError tile), w).
Proof.
  intros Hout. destruct w as [b g]. unfold discard_tile. py_simpl.
  by rewrite decide_True.
Qed.

(** A discard of a drawn tile, pile by pile and counter by counter. *)
Lemma discard_tile_present tile w :
  tile ∈ drawn_tiles (board w) →
  ∃ w', discard_tile tile w = (Return tt, w')
    ∧ unused_tiles (board w') = unused_tiles (board w)
    ∧ discarded_tiles (board w') = discarded_tiles (board w) ++ [tile]
    ∧ match py_remove tile (drawn_tiles (board w)) with
      | [policy] =>
          drawn_tiles (board w') = []
          ∧ latest_policy (board w') = Some policy
          ∧ liberal_progress (board w') =
              (liberal_progress (board w)
               + if decide (policy = LIBERAL_POLICY) then 1 else 0)%Z
          ∧ fascist_progress (board w') =
              (fascist_progress (board w)
               + if decide (policy = FASCIST_POLICY) then 1 else 0)%Z
      | rest =>
          drawn_tiles (board w') = rest
          ∧ latest_policy (board w') = latest_policy (board w)
          ∧ liberal_progress (board w') = liberal_progress (board w)
          ∧ fascist_progress (board w') = fascist_progress (board w)
      end.
Proof.
  intros Hin. destruct w as [b g]. unfold discard_tile. py_simpl.
  rewrite decide_False by (by intros Hout). simpl.
  destruct (py_remove tile (drawn_tiles b)) as [|policy [|second rest]] eqn:Hrest;
    simpl.
  - eexists; split; [reflexivity|]. done.
  - destruct policy; simpl; eexists; (split; [reflexivity|]); simpl;
      repeat split; lia.
  - eexists; split; [reflexivity|]. done.
Qed.

(** The pool of a draw holds what the two piles held. *)
Lemma draw_pool_length w :
  ((3 ≤ length (unused_tiles (board w)))%nat
   ∧ length (draw_pool w) = length (unused_tiles (board w)))
  ∨ ((length (unused_tiles (board w)) < 3)%nat
     ∧ length (draw_pool w) =
         (length (unused_tiles (board w))
          + length (discarded_tiles (board w)))%nat).
Proof.
  unfold draw_pool. destruct (decide _) as [Hlt|Hge]; [right|left; lia].
  split; [done|]. by rewrite length_app, shuffle_length.
Qed.

(** One deck call on a board whose drawn pile is empty when the call is a
    draw: tiles leave the piles only by enactment, one at a time, and each
    enactment adds one to the progress counters. *)
Lemma deck_step_conserves w c :
  is_deck_call c = true →
  draws_on_empty [c] w = true →
  tiles_in_piles (step w c) + (if enacts w c then 1 else 0) = tiles_in_piles w
  ∧ (liberal_progress (board (step w c)) + fascist_progress (board (step w c))
     = liberal_progress (board w) + fascist_progress (board w)
       + (if enacts w c then 1 else 0))%Z.
Proof.
  intros Hdeck Hempty. destruct c; try discriminate; unfold step; simpl in *.
  - (* draw *)
    rewrite andb_true_r in Hempty. apply bool_decide_eq_true in Hempty.
    destruct (draw_three_tiles_run w)
      as (w' & -> & Hdrawn & Hunused & Hdisc & Hlib & Hfas & _).
    simpl. unfold tiles_in_piles. rewrite Hdrawn, Hunused, Hdisc, Hlib, Hfas, Hempty.
    rewrite length_take, length_drop.
    split; [|lia].
    destruct (draw_pool_length w) as [[Hge Hlen]|[Hlt Hlen]]; rewrite Hlen.
    + rewrite decide_False by lia. cbn [length]. lia.
    + rewrite decide_True by lia. cbn [length]. lia.
  - (* discard *)
    destruct (decide (tile ∈ drawn_tiles (board w))) as [Hin|Hout].
    + rewrite bool_decide_eq_true_2 by done. simpl.
      pose proof (py_remove_length tile _ Hin) as Hlen.
      destruct (discard_tile_present tile w Hin)
        as (w' & -> & Hunused & Hdisc & Hrest).
      simpl. unfold tiles_in_piles. rewrite Hunused, Hdisc, length_app. simpl.
      destruct (py_remove tile (drawn_tiles (board w)))
        as [|policy [|second rest]]; simpl in *.
      * destruct Hrest as (-> & _ & -> & ->). simpl. lia.
      * destruct Hrest as (-> & _ & -> & ->). simpl.
        split; [lia|]. destruct policy; simpl; lia.
      * destruct Hrest as (-> & _ & -> & ->). simpl. lia.
    + rewrite bool_decide_eq_false_2 by done. simpl.
      rewrite discard_tile_absent by done. simpl. lia.
Qed.

Lemma deck_run_conserves cs : ∀ w,
  forallb is_deck_call cs = true →
  draws_on_empty cs w = true →
  tiles_in_piles (run cs w) + enacted_count cs w = tiles_in_piles w
  ∧ (liberal_progress (board (run cs w)) + fascist_progress (board (run cs w))
     = liberal_progress (board w) + fascist_progress (board w)
       + Z.of_nat (enacted_count cs w))%Z.
Proof.
  induction cs as [|c cs IH]; intros w Hdeck Hempty; simpl in *.
  - split; lia.
  - apply andb_true_iff in Hdeck as [Hc Hcs].
    apply andb_true_iff in Hempty as [Hhere Hlater].
    destruct (deck_step_conserves w c Hc) as [Hpiles Hprog].
    { simpl. by rewrite Hhere. }
    destruct (IH (step w c) Hcs Hlater) as [Hpiles' Hprog'].
    unfold run in *. simpl. split; [|rewrite Hprog', Hprog];
      destruct (enacts w c); lia.
Qed.

Lemma Board_init_piles g :
  tiles_in_piles (Board_init g) = 17
  ∧ liberal_progress (board (Board_init g)) = 0%Z
  ∧ fascist_progress (board (Board_init g)) = 0%Z.
Proof.
  unfold tiles_in_piles, Board_init. simpl. by rewrite shuffle_length.
Qed.

(** C1 (as amended): from a fresh board, along every sequence of draws and
    discards in which each draw finds the drawn pile empty, the tiles in the
    three piles plus the enacted ones number 17, and the enacted ones number
    [liberal_progress + fascist_progress]. *)
Theorem tile_conservation (cs : list Call) (g : Rng) :
  forallb is_deck_call cs = true →
  draws_on_empty cs (Board_init g) = true →
  tiles_in_piles (run cs (Board_init g)) + enacted_count cs (Board_init g) = 17
  ∧ Z.of_nat (enacted_count cs (Board_init g)) =
      (liberal_progress (board (run cs (Board_init g)))
       + fascist_progress (board (run cs (Board_init g))))%Z.
Proof.
  intros Hdeck Hempty.
  destruct (deck_run_conserves cs _ Hdeck Hempty) as [Hpiles Hprog].
  destruct (Board_init_piles g) as (H17 & Hlib & Hfas).
  split; [lia|]. rewrite Hprog, Hlib, Hfas. lia.
Qed.

(** C5 (as amended): a draw never fails.  When the unused pile holds fewer
    than three tiles the shuffled discards, a permutation of the discard
    pile, go under it and the discard pile is emptied; then the first three
    tiles of the unused pile, or all of them when there are fewer, become
    the drawn pile, replacing what it held: exactly three whenever the two
    piles together hold at least three. *)
Theorem draw_three_tiles_total (w : World) :
  ∃ w', draw_three_tiles w = (Return tt, w')
    ∧ draw_pool w ≡ₚ
        (if decide (length (unused_tiles (board w)) < 3)
         then unused_tiles (board w) ++ discarded_tiles (board w)
         else unused_tiles (board w))
    ∧ drawn_tiles (board w') = take 3 (draw_pool w)
    ∧ unused_tiles (board w') = drop 3 (draw_pool w)
    ∧ discarded_tiles (board w') =
        (if decide (length (unused_tiles (board w)) < 3)
         then [] else discarded_tiles (board w))
    ∧ length (drawn_tiles (board w')) =
        3 `min` (length (unused_tiles (board w))
                 + length (discarded_tiles (board w))).
Proof.
  destruct (draw_three_tiles_run w)
    as (w' & Hrun & Hdrawn & Hunused & Hdisc & _).
  exists w'. repeat split; try done.
  - unfold draw_pool. destruct (decide _); [|done]. by rewrite shuffle_perm.
  - rewrite Hdrawn, length_take.
    destruct (draw_pool_length w) as [[Hge Hlen]|[Hlt Hlen]]; lia.
Qed.

(** C6: a discard that leaves exactly one tile in the drawn pile records
    that tile as [latest_policy], adds exactly one to the progress counter
    of its kind and none to the other, and leaves the drawn pile empty; a
    discard that leaves two tiles there changes neither counter. *)
Theorem discard_tile_enactment (tile : Tile) (w : World) :
  tile ∈ drawn_tiles (board w) →
  ∃ w', discard_tile tile w = (Return tt, w')
    ∧ (length (py_remove tile (drawn_tiles (board w))) = 1 →
       ∃ policy,
         py_remove tile (drawn_tiles (board w)) = [policy]
         ∧ latest_policy (board w') = Some policy
         ∧ drawn_tiles (board w') = []
         ∧ liberal_progress (board w') =
             (liberal_progress (board w)
              + match policy with LIBERAL_POLICY => 1 | FASCIST_POLICY => 0 end)%Z
         ∧ fascist_progress (board w') =
             (fascist_progress (board w)
              + match policy with LIBERAL_POLICY => 0 | FASCIST_POLICY => 1 end)%Z)
    ∧ (length (py_remove tile (drawn_tiles (board w))) = 2 →
       drawn_tiles (board w') = py_remove tile (drawn_tiles (board w))
       ∧ liberal_progress (board w') = liberal_progress (board w)
       ∧ fascist_progress (board w') = fascist_progress (board w)).
Proof.
  intros Hin.
  destruct (discard_tile_present tile w Hin) as (w' & Hrun & _ & _ & Hrest).
  exists w'. split; [done|].
  destruct (py_remove tile (drawn_tiles (board w)))
    as [|policy [|second rest]]; simpl.
  - split; intros; discriminate.
  - destruct Hrest as (Hdrawn & Hlatest & Hlib & Hfas).
    split; [|intros; discriminate].
    intros _. exists policy. rewrite Hlib, Hfas. by destruct policy.
  - destruct Hrest as (Hdrawn & _ & Hlib & Hfas).
    split; [intros; discriminate|done].
Qed.

(** *** Computations that leave the progress counters alone *)

Lemma keeps_ret {A} (a : A) : keeps_progress (mret a).
Proof. by intros w. Qed.

Lemma keeps_raise {A} e : keeps_progress (raise (A := A) e).
Proof. by intros w. Qed.

Lemma keeps_lift {A} (r : Result A) : keeps_progress (lift r).
Proof. by intros w. Qed.

Lemma keeps_get_self : keeps_progress get_self.
Proof. by intros w. Qed.

Lemma keeps_load_global {A} x (v : A) : keeps_progress (load_global x v).
Proof.
  intros w. destruct (decide (x ∈ module_globals)).
  - by rewrite load_global_bound.
  - by rewrite load_global_unbound.
Qed.

Lemma keeps_random_shuffle {A} (l : list A) : keeps_progress (random_shuffle l).
Proof. by intros w. Qed.

Lemma keeps_modify_self f :
  (∀ b, liberal_progress (f b) = liberal_progress b
      ∧ fascist_progress (f b) = fascist_progress b) →
  keeps_progress (modify_self f).
Proof. intros Hf w. apply Hf. Qed.

Lemma keeps_register_update prop : keeps_progress (register_update prop).
Proof. by intros w. Qed.

Lemma keeps_bind {A B} (m : Py A) (f : A → Py B) :
  keeps_progress m → (∀ a, keeps_progress (f a)) → keeps_progress (m ≫= f).
Proof.
  intros Hm Hf w. unfold mbind, Py_bind.
  destruct (Hm w) as [Hlib Hfas].
  destruct (m w) as [[a|e] w1]; simpl in *; [|done].
  destruct (Hf a w1) as [Hlib' Hfas']. by rewrite Hlib', Hfas'.
Qed.

Lemma keeps_for_each {A S} (l : list A) (body : S → A → Py S) :
  (∀ s x, keeps_progress (body s x)) → ∀ s, keeps_progress (for_each l body s).
Proof.
  intros Hbody. induction l as [|x l IH]; intros s; simpl.
  - apply keeps_ret.
  - apply keeps_bind; [apply Hbody|apply IH].
Qed.

Ltac keeps_step :=
  first
    [ apply keeps_bind; [|intros ?]
    | apply keeps_ret
    | apply keeps_raise
    | apply keeps_lift
    | apply keeps_get_self
    | apply keeps_load_global
    | apply keeps_random_shuffle
    | apply keeps_register_update
    | apply keeps_modify_self; intros ?; by split
    | apply keeps_for_each; intros ? ?
    | match goal with
      | |- keeps_progress (match ?x with _ => _ end) => destruct x
      end ].

Ltac keeps := repeat keeps_step.

Lemma keeps_add_player nm : keeps_progress (add_player nm).
Proof. unfold add_player. keeps. Qed.

Lemma keeps_get_player nm : keeps_progress (get_player nm).
Proof. unfold get_player. keeps. Qed.

Lemma keeps_begin_game : keeps_progress begin_game.
Proof. unfold begin_game. keeps. Qed.

Lemma keeps_draw_three_tiles : keeps_progress draw_three_tiles.
Proof. unfold draw_three_tiles. keeps. Qed.

Lemma keeps_get_president : keeps_progress get_president.
Proof. unfold get_president. keeps. Qed.

Lemma keeps_advance_president : keeps_progress advance_president.
Proof. unfold advance_president, get_president. keeps. Qed.

Lemma keeps_get_winner : keeps_progress get_winner.
Proof. unfold get_winner. keeps. Qed.

Lemma keeps_get_current_presidential_power :
  keeps_progress get_current_presidential_power.
Proof. unfold get_current_presidential_power. keeps. Qed.

Lemma keeps_extract_updates custom_updates :
  keeps_progress (extract_updates custom_updates).
Proof. unfold extract_updates, extract_one. keeps. Qed.

Lemma keeps_get_full_state : keeps_progress get_full_state.
Proof. unfold get_full_state. keeps. Qed.

(** A discard moves at most one counter, by one. *)
Lemma discard_tile_progress tile w :
  (liberal_progress (board (discard_tile tile w).2) = liberal_progress (board w)
   ∧ fascist_progress (board (discard_tile tile w).2) = fascist_progress (board w))
  ∨ (liberal_progress (board (discard_tile tile w).2)
       = (liberal_progress (board w) + 1)%Z
     ∧ fascist_progress (board (discard_tile tile w).2)
       = fascist_progress (board w))
  ∨ (liberal_progress (board (discard_tile tile w).2) = liberal_progress (board w)
     ∧ fascist_progress (board (discard_tile tile w).2)
       = (fascist_progress (board w) + 1)%Z).
Proof.
  destruct (decide (tile ∈ drawn_tiles (board w))) as [Hin|Hout].
  - destruct (discard_tile_present tile w Hin) as (w' & -> & _ & _ & Hrest).
    simpl.
    destruct (py_remove tile (drawn_tiles (board w)))
      as [|policy [|second rest]].
    + left. by destruct Hrest as (_ & _ & -> & ->).
    + destruct Hrest as (_ & _ & -> & ->).
      destruct policy; simpl; [right; left|right; right]; split; lia.
    + left. by destruct Hrest as (_ & _ & -> & ->).
  - rewrite discard_tile_absent by done. by left.
Qed.

(** C10: every public operation, whether it completes or raises, leaves
    each progress counter at least as large as it found it, and a discard
    either leaves both as they were or adds one to exactly one of them. *)
Theorem progress_monotone :
  (∀ (c : Call) (w : World),
     (liberal_progress (board w) ≤ liberal_progress (board (step w c)))%Z
     ∧ (fascist_progress (board w) ≤ fascist_progress (board (step w c)))%Z)
  ∧ (∀ (tile : Tile) (w : World),
       (liberal_progress (board (step w (DiscardTile tile)))
          = liberal_progress (board w)
        ∧ fascist_progress (board (step w (DiscardTile tile)))
          = fascist_progress (board w))
       ∨ (liberal_progress (board (step w (DiscardTile tile)))
            = (liberal_progress (board w) + 1)%Z
          ∧ fascist_progress (board (step w (DiscardTile tile)))
            = fascist_progress (board w))
       ∨ (liberal_progress (board (step w (DiscardTile tile)))
            = liberal_progress (board w)
          ∧ fascist_progress (board (step w (DiscardTile tile)))
            = (fascist_progress (board w) + 1)%Z)).
Proof.
  assert (Hkeeps : ∀ (m : Py unit) w, keeps_progress m →
    (liberal_progress (board w) ≤ liberal_progress (board (m w).2))%Z
    ∧ (fascist_progress (board w) ≤ fascist_progress (board (m w).2))%Z).
  { intros m w Hm. destruct (Hm w) as [-> ->]. lia. }
  split.
  - intros c w. unfold step.
    destruct c; simpl;
      try (apply Hkeeps; unfold void;
           first [ apply keeps_add_player | apply keeps_begin_game
                 | apply keeps_draw_three_tiles | apply keeps_advance_president
                 | apply keeps_bind; [|intros; apply keeps_ret] ];
           first [ apply keeps_get_player | apply keeps_get_winner
                 | apply keeps_get_current_presidential_power
                 | apply keeps_extract_updates | apply keeps_get_full_state ]);
      try (split; lia).
    destruct (discard_tile_progress tile w) as [[-> ->]|[[-> ->]|[-> ->]]]; lia.
  - intros tile w. unfold step. simpl. apply discard_tile_progress.
Qed.

(** *** The roster *)

Lemma existsb_name nm (l : list Player) :
  existsb (λ p, bool_decide (name p = nm)) l = true ↔ nm ∈ name <$> l.
Proof.
  rewrite existsb_exists, list_elem_of_fmap. split.
  - intros (p & Hin & Hp). apply bool_decide_eq_true in Hp.
    exists p. split; [done|]. by apply list_elem_of_In.
  - intros (p & -> & Hin). exists p. split; [by apply list_elem_of_In|].
    by apply bool_decide_eq_true.
Qed.

(** [add_player], outcome by outcome. *)
Lemma add_player_run nm w :
  add_player nm w =
    let marked := set_updates ({["players"]} ∪ updates (board w)) (board w) in
    if existsb (λ p, bool_decide (name p = nm)) (players (board w))
    then (Raise (DuplicatePlayerNameError nm), mkWorld marked (rng w))
    else (Return tt,
          mkWorld
            (set_players
               (players (board w)
                ++ [Player_new (Z.of_nat (length (players (board w)))) nm])
               marked)
            (rng w)).
Proof.
  destruct w as [b g]. unfold add_player. py_simpl.
  by destruct (existsb _ (players b)).
Qed.

(** [begin_game] with a roster size outside the table. *)
Lemma begin_game_invalid w :
  NUM_PLAYERS_TO_BOARD_CONFIG (length (players (board w))) = None →
  begin_game w =
    (Raise (InvalidNumPlayersError (length (players (board w)))),
     mkWorld
       (set_updates ({["fascist_powers"]} ∪ ({["players"]} ∪ updates (board w)))
          (board w))
       (rng w)).
Proof.
  intros Hnone. destruct w as [b g]. unfold begin_game. py_simpl.
  rewrite load_global_bound by apply config_bound. simpl. by rewrite Hnone.
Qed.

(** *** Succession *)

(** The position an index reads is where the value it reads sits. *)
Lemma py_index_seat {A} (l : list A) (i : Z) :
  py_index l i = match py_seat l i with Some seat => l !! seat | None => None end.
Proof.
  unfold py_index, py_seat. destruct (0 <=? i)%Z; [|by destruct (_ <=? _)%Z].
  destruct (decide _) as [Hin|Hout]; [done|].
  apply lookup_ge_None. lia.
Qed.

(** [advance_president] with a president in the roster: the bare name
    [president_id] is read after the previous president is recorded. *)
Lemma advance_president_run w p :
  py_index (players (board w)) (president_id (board w)) = Some p →
  advance_president w =
    (Raise (NameError "president_id"),
     mkWorld
       (set_prev_president
          (py_seat (players (board w)) (president_id (board w)))
          (set_updates ({["president_id"]} ∪ updates (board w)) (board w)))
       (rng w)).
Proof.
  intros Hp. destruct w as [b g]. unfold advance_president, get_president.
  py_simpl. rewrite Hp. simpl.
  by rewrite load_global_unbound by apply president_id_unbound.
Qed.

(** *** The update channel *)

Lemma for_each_extract_one props response w :
  for_each props extract_one response w =
    match props with
    | [] => (Return response, w)
    | _ :: _ => (Raise (NameError "private_state_translations"), w)
    end.
Proof.
  destruct props as [|prop props]; simpl; [done|].
  unfold extract_one. py_simpl.
  by rewrite load_global_unbound by apply translations_unbound.
Qed.

(** [extract_updates]: with nothing to iterate over it answers the empty
    dict and resets the pending set; with anything to iterate over the
    first pass of its loop raises, before the pending set is reset. *)
Lemma extract_updates_run custom_updates w :
  extract_updates custom_updates w =
    match items_to_report custom_updates (board w) with
    | Return [] => (Return ∅, mkWorld (set_updates ∅ (board w)) (rng w))
    | Return (_ :: _) => (Raise (NameError "private_state_translations"), w)
    | Raise e => (Raise e, w)
    end.
Proof.
  destruct w as [b g]. unfold extract_updates. py_simpl.
  destruct (items_to_report custom_updates b) as [new_updates|e]; [|done].
  rewrite for_each_extract_one. by destruct new_updates.
Qed.



(** C3: after one [add_player] on a fresh board the pending set is
    [{"players"}]; [extract_updates] then raises [NameError], emits
    nothing and leaves the pending set as it was. *)
Theorem extract_updates_pending_raises (g : Rng) (nm : string) :
  updates (board (step (Board_init g) (AddPlayer nm))) = {["players"]}
  ∧ extract_updates None (step (Board_init g) (AddPlayer nm)) =
      (Raise (NameError "private_state_translations"),
       step (Board_init g) (AddPlayer nm)).
Proof.
  assert (Hupd : updates (board (step (Board_init g) (AddPlayer nm)))
                 = {["players"]}).
  { unfold step. cbn [call]. rewrite add_player_run. simpl. apply (right_id_L ∅ (∪)). }
  split; [done|].
  rewrite extract_updates_run. unfold items_to_report.
  rewrite Hupd, elements_singleton. done.
Qed.

(** C4: on a fresh board with the two players alice and bob,
    [advance_president] records alice, the player in seat 0, as previous
    president and then raises [NameError]; the president index stays 0,
    where [(0 + 1) mod 2] is 1. *)
Theorem advance_president_raises (g : Rng) :
  ∃ w', advance_president
          (run [AddPlayer "alice"; AddPlayer "bob"] (Board_init g))
        = (Raise (NameError "president_id"), w')
    ∧ length (players (board w')) = 2
    ∧ prev_president (board w') = Some 0%nat
    ∧ the_player (board w') (prev_president (board w'))
      = Some (Player_new 0 "alice")
    ∧ president_id (board w') = 0%Z
    ∧ ((0 + 1) `mod` 2 = 1)%Z.
Proof.
  unfold run, step. cbn [foldl call].
  rewrite !add_player_run. simpl.
  erewrite advance_president_run by reflexivity.
  eexists. split; [reflexivity|]. done.
Qed.

(** C7: [begin_game] on a fresh board raises [InvalidNumPlayersError], and
    the pending set, empty before the call, holds two names after it; and
    whenever [add_player] raises, the board is the one it was given with
    ["players"] added to the pending set. *)
Theorem failed_calls_mark_fields :
  (∀ g : Rng,
     (begin_game (Board_init g)).1 = Raise (InvalidNumPlayersError 0)
     ∧ updates (board (Board_init g)) = ∅
     ∧ updates (board (begin_game (Board_init g)).2)
       = {["fascist_powers"; "players"]}
     ∧ (begin_game (Board_init g)).2 ≠ Board_init g)
  ∧ (∀ (nm : string) (w : World),
       (add_player nm w).1 = Raise (DuplicatePlayerNameError nm) →
       (add_player nm w).2 =
         mkWorld (set_updates ({["players"]} ∪ updates (board w)) (board w))
           (rng w)).
Proof.
  split.
  - intros g. rewrite begin_game_invalid by done. simpl.
    assert (Hupd : {["fascist_powers"]} ∪ ({["players"]} ∪ ∅)
                   = ({["fascist_powers"; "players"]} : gset string)).
    { by rewrite (right_id_L ∅ (∪)). }
    rewrite Hupd. repeat split.
    intros Heq. apply (f_equal (λ w, updates (board w))) in Heq. simpl in Heq.
    assert (Hin : "players" ∈ (∅ : gset string)) by (rewrite <- Heq; set_solver).
    by apply not_elem_of_empty in Hin.
  - intros nm w. rewrite add_player_run. simpl.
    by destruct (existsb _ (players (board w))).
Qed.

(** [add_player] raises exactly on the name of an active player. *)
Lemma add_player_duplicate_iff nm w :
  (add_player nm w).1 = Raise (DuplicatePlayerNameError nm)
  ↔ nm ∈ name <$> players (board w).
Proof.
  rewrite <- existsb_name, add_player_run. simpl.
  by destruct (existsb _ (players (board w))).
Qed.

(** C9 (as amended): [get_winner] answers Liberal exactly when
    [liberal_progress] is 5, Fascist exactly when [fascist_progress] is 6
    and [liberal_progress] is not 5, and nothing otherwise; it leaves the
    board as it was. *)
Theorem get_winner_thresholds (w : World) :
  ∃ winner, get_winner w = (Return winner, w)
    ∧ (winner = Some LIBERAL_POLICY ↔ liberal_progress (board w) = 5%Z)
    ∧ (winner = Some FASCIST_POLICY ↔
         fascist_progress (board w) = 6%Z ∧ liberal_progress (board w) ≠ 5%Z)
    ∧ (winner = None ↔
         liberal_progress (board w) ≠ 5%Z ∧ fascist_progress (board w) ≠ 6%Z).
Proof.
  destruct w as [b g]. unfold get_winner. py_simpl.
  rewrite load_global_bound by apply liberal_goal_bound. simpl.
  unfold LIBERAL_WINNING_PROGRESS.
  destruct (decide (liberal_progress b = 5%Z)) as [Hlib|Hlib].
  { eexists. split; [reflexivity|]. intuition congruence. }
  py_simpl. rewrite load_global_bound by apply fascist_goal_bound. simpl.
  unfold FASCIST_WINNING_PROGRESS.
  destruct (decide (fascist_progress b = 6%Z)) as [Hfas|Hfas];
    (eexists; split; [reflexivity|]); intuition congruence.
Qed.

(** ** Further properties of the methods *)

(** *** Computations that move the board along a relation *)

#[local] Instance same_on_preorder {X} (view : Board → X) :
  PreOrder (same_on view).
Proof.
  split; [by intros b|].
  intros b1 b2 b3 H12 H23. unfold same_on in *. congruence.
Qed.

#[local] Instance pending_grows_preorder : PreOrder pending_grows.
Proof. split; [intros b|intros b1 b2 b3]; unfold pending_grows; set_solver. Qed.

Section Respects.
Context (R : relation Board) `{!PreOrder R}.

Lemma respects_ret {A} (a : A) : respects R (mret a).
Proof. intros w. simpl. reflexivity. Qed.

Lemma respects_raise {A} e : respects R (raise (A := A) e).
Proof. intros w. simpl. reflexivity. Qed.

Lemma respects_lift {A} (r : Result A) : respects R (lift r).
Proof. intros w. simpl. reflexivity. Qed.

Lemma respects_get_self : respects R get_self.
Proof. intros w. simpl. reflexivity. Qed.

Lemma respects_load_global {A} x (v : A) : respects R (load_global x v).
Proof.
  intros w. destruct (decide (x ∈ module_globals)).
  - rewrite load_global_bound by done. simpl. reflexivity.
  - rewrite load_global_unbound by done. simpl. reflexivity.
Qed.

Lemma respects_random_shuffle {A} (l : list A) : respects R (random_shuffle l).
Proof. intros w. simpl. reflexivity. Qed.

Lemma respects_modify_self f : (∀ b, R b (f b)) → respects R (modify_self f).
Proof. intros Hf w. apply Hf. Qed.

Lemma respects_bind {A B} (m : Py A) (f : A → Py B) :
  respects R m → (∀ a, respects R (f a)) → respects R (m ≫= f).
Proof.
  intros Hm Hf w. unfold mbind, Py_bind.
  pose proof (Hm w) as Hw.
  destruct (m w) as [[a|e] w1]; simpl in *; [|done].
  by etrans; [|apply Hf].
Qed.

Lemma respects_for_each {A S} (l : list A) (body : S → A → Py S) :
  (∀ s x, respects R (body s x)) → ∀ s, respects R (for_each l body s).
Proof.
  intros Hbody. induction l as [|x l IH]; intros s; simpl.
  - apply respects_ret.
  - apply respects_bind; [apply Hbody|apply IH].
Qed.

End Respects.

(** Walks a method body; [tac] proves that an attribute assignment moves the
    board along the relation. *)
Ltac respects_step tac :=
  first
    [ apply respects_bind; try tc_solve; [|intros ?]
    | apply respects_ret; tc_solve
    | apply respects_raise; tc_solve
    | apply respects_lift; tc_solve
    | apply respects_get_self; tc_solve
    | apply respects_load_global; tc_solve
    | apply respects_random_shuffle; tc_solve
    | apply respects_modify_self; intros ?; tac
    | apply respects_for_each; try tc_solve; intros ? ?
    | match goal with
      | |- respects _ (match ?x with _ => _ end) => destruct x
      end ].

Ltac respects_by tac := unfold register_update; repeat respects_step tac.

Ltac more_pending := unfold pending_grows; simpl; set_solver.

(** *** The president's seat *)

Lemma py_index_is_Some {A} (l : list A) (i : Z) :
  is_Some (py_index l i)
  ↔ (- Z.of_nat (length l) ≤ i < Z.of_nat (length l))%Z.
Proof.
  unfold py_index.
  destruct (0 <=? i)%Z eqn:Hsign.
  - apply Z.leb_le in Hsign. rewrite lookup_lt_is_Some. lia.
  - apply Z.leb_gt in Hsign.
    destruct (- Z.of_nat (length l) <=? i)%Z eqn:Hlow.
    + apply Z.leb_le in Hlow. rewrite lookup_lt_is_Some. lia.
    + apply Z.leb_gt in Hlow. split; [by intros [? ?]|lia].
Qed.

Lemma py_index_elem_of {A} (l : list A) (i : Z) (x : A) :
  py_index l i = Some x → x ∈ l.
Proof.
  unfold py_index. intros Hx.
  repeat destruct (_ <=? _)%Z; try done; by eapply list_elem_of_lookup_2.
Qed.

(** X14: [get_president] answers a seated player exactly when the president
    index lies between minus the roster size and the roster size; outside
    that range, so on every empty roster, it raises [IndexError].  It never
    writes. *)
Theorem get_president_bounds (w : World) :
  ((- Z.of_nat (length (players (board w))) ≤ president_id (board w)
    < Z.of_nat (length (players (board w))))%Z
   ∧ ∃ p, get_president w = (Return p, w) ∧ p ∈ players (board w))
  ∨ (¬ (- Z.of_nat (length (players (board w))) ≤ president_id (board w)
        < Z.of_nat (length (players (board w))))%Z
     ∧ get_president w = (Raise IndexError, w)).
Proof.
  pose proof (py_index_is_Some (players (board w)) (president_id (board w)))
    as Hrange.
  destruct w as [b g]. unfold get_president. py_simpl.
  destruct (py_index (players b) (president_id b)) as [p|] eqn:Hp.
  - left. split; [by apply Hrange|].
    exists p. split; [done|]. by eapply py_index_elem_of.
  - right. split; [|done]. intros Hin. apply Hrange in Hin. by destruct Hin.
Qed.

(** [advance_president] with no president in the roster. *)
Lemma advance_president_vacant w :
  py_index (players (board w)) (president_id (board w)) = None →
  advance_president w =
    (Raise IndexError,
     mkWorld (set_updates ({["president_id"]} ∪ updates (board w)) (board w))
       (rng w)).
Proof.
  intros Hp. destruct w as [b g]. unfold advance_president, get_president.
  py_simpl. by rewrite Hp.
Qed.

(** X4: [advance_president] never returns and never moves the president
    index.  With a president in the roster it records that player, by
    reference to the seat, as previous president and raises [NameError];
    with none it raises [IndexError] and records nobody.  Either way it
    marks ["president_id"] as updated. *)
Theorem advance_president_never_advances (w : World) :
  ∃ e w', advance_president w = (Raise e, w')
    ∧ president_id (board w') = president_id (board w)
    ∧ players (board w') = players (board w)
    ∧ "president_id" ∈ updates (board w')
    ∧ match py_index (players (board w)) (president_id (board w)) with
      | Some p =>
          e = NameError "president_id"
          ∧ prev_president (board w')
            = py_seat (players (board w)) (president_id (board w))
          ∧ the_player (board w') (prev_president (board w')) = Some p
      | None =>
          e = IndexError ∧ prev_president (board w') = prev_president (board w)
      end.
Proof.
  destruct (py_index (players (board w)) (president_id (board w)))
    as [p|] eqn:Hp.
  - rewrite (advance_president_run w p Hp).
    eexists _, _. split; [reflexivity|]. simpl.
    repeat split; [set_solver|].
    rewrite py_index_seat in Hp.
    by destruct (py_seat (players (board w)) (president_id (board w))).
  - rewrite (advance_president_vacant w Hp).
    eexists _, _. split; [reflexivity|]. simpl. repeat split. set_solver.
Qed.

(** *** Looking players up *)

Lemma find_first {A} (f : A → bool) (l : list A) (x : A) :
  find f l = Some x →
  ∃ before after,
    l = before ++ x :: after ∧ f x = true ∧ Forall (λ y, f y = false) before.
Proof.
  induction l as [|y l IH]; simpl; [done|].
  destruct (f y) eqn:Hy.
  - intros [= ->]. by exists [], l.
  - intros Hfind. destruct (IH Hfind) as (before & after & -> & Hx & Hbefore).
    exists (y :: before), after. repeat split; [done|]. by constructor.
Qed.

Lemma find_none_all {A} (f : A → bool) (l : list A) :
  find f l = None ↔ Forall (λ y, f y = false) l.
Proof.
  induction l as [|y l IH]; simpl; [by split|].
  destruct (f y) eqn:Hy.
  - split; [done|]. intros Hall. apply Forall_cons in Hall as [Hfalse _].
    congruence.
  - rewrite IH. split; [by constructor|]. by intros [_ ?]%Forall_cons.
Qed.

Lemma find_snoc {A} (f : A → bool) (l : list A) (x : A) :
  find f (l ++ [x]) =
    match find f l with
    | Some y => Some y
    | None => if f x then Some x else None
    end.
Proof.
  induction l as [|y l IH]; simpl; [done|]. by destruct (f y).
Qed.

Lemma names_all_differ nm (l : list Player) :
  Forall (λ p, bool_decide (name p = nm) = false) l ↔ nm ∉ name <$> l.
Proof.
  rewrite Forall_forall, list_elem_of_fmap. split.
  - intros Hall (p & -> & Hin). specialize (Hall p Hin).
    by apply bool_decide_eq_false in Hall.
  - intros Hout p Hin. apply bool_decide_eq_false. intros <-.
    apply Hout. by exists p.
Qed.

(** X5: [get_player] answers the first active player of that name, and
    raises [NonexistentPlayerNameError] exactly when no active player has
    it; eliminated players are not searched.  It never writes. *)
Theorem get_player_first_match (nm : string) (w : World) :
  (∃ p before after,
     get_player nm w = (Return p, w)
     ∧ players (board w) = before ++ p :: after
     ∧ name p = nm
     ∧ nm ∉ name <$> before)
  ∨ (get_player nm w = (Raise (NonexistentPlayerNameError nm), w)
     ∧ nm ∉ name <$> players (board w)).
Proof.
  destruct w as [b g]. unfold get_player. py_simpl.
  destruct (find _ (players b)) as [p|] eqn:Hfind.
  - left. apply find_first in Hfind as (before & after & Hsplit & Hp & Hbefore).
    exists p, before, after. repeat split; [done| |].
    + by apply bool_decide_eq_true in Hp.
    + by apply names_all_differ.
  - right. split; [done|]. by apply names_all_differ, find_none_all.
Qed.

(** X6: a player added under a name no active player has is the one
    [get_player] then answers for that name, with the former roster size as
    id; and for every other name [get_player] answers as before. *)
Theorem get_player_after_add_player (nm : string) (w : World) :
  nm ∉ name <$> players (board w) →
  get_player nm (step w (AddPlayer nm)) =
    (Return (Player_new (Z.of_nat (length (players (board w)))) nm),
     step w (AddPlayer nm))
  ∧ ∀ other, other ≠ nm →
      (get_player other (step w (AddPlayer nm))).1 = (get_player other w).1.
Proof.
  intros Hnew. unfold step. cbn [call]. rewrite add_player_run. simpl.
  destruct (existsb _ (players (board w))) eqn:Hdup.
  { apply existsb_name in Hdup. done. }
  simpl. split.
  - unfold get_player. py_simpl. rewrite find_snoc.
    apply names_all_differ, find_none_all in Hnew. rewrite Hnew. simpl.
    by rewrite bool_decide_eq_true_2.
  - intros other Hother. unfold get_player. py_simpl. rewrite find_snoc.
    destruct (find _ (players (board w))); [done|]. simpl.
    by rewrite bool_decide_eq_false_2.
Qed.

(** *** The update channel, in general *)

(** X7: [extract_updates] never emits a field.  With nothing to iterate
    over (an iterator that yields nothing, or no truthy argument and an
    empty pending set) it returns the empty mapping and leaves the pending
    set empty; in every other case it raises and leaves the board, the
    pending set included, as it was: [TypeError] for a truthy argument that
    cannot be iterated, [NameError] otherwise. *)
Theorem extract_updates_never_emits
    (custom_updates : option Iterable) (w : World) :
  (nothing_to_report custom_updates (board w)
   ∧ extract_updates custom_updates w
     = (Return ∅, mkWorld (set_updates ∅ (board w)) (rng w)))
  ∨ (¬ nothing_to_report custom_updates (board w)
     ∧ ∃ e, extract_updates custom_updates w = (Raise e, w)
         ∧ (e = NameError "private_state_translations"
            ∨ e = TypeError ∧ custom_updates = Some (Scalar true))).
Proof.
  rewrite extract_updates_run. unfold nothing_to_report.
  assert (Hpending : ∀ items, elements (updates (board w)) = items →
            (items = [] ∧ updates (board w) = ∅)
            ∨ (∃ p ps, items = p :: ps) ∧ updates (board w) ≠ ∅).
  { intros [|p ps] Hel.
    - left. split; [done|]. by apply leibniz_equiv, elements_empty_inv.
    - right. split; [by exists p, ps|].
      intros Hnone. by rewrite Hnone, elements_empty in Hel. }
  destruct custom_updates as [[[|p ps]|[|p ps]|[|]]|]; simpl;
    try (destruct (Hpending _ eq_refl) as [[-> Hnone]|[(p' & ps' & ->) Hsome]]).
  all: try (left; split; [by auto|done]).
  all: right; (split; [intros [[=]|[? ?]]; done|]).
  all: eexists; split; [reflexivity|]; by auto.
Qed.

Lemma pending_add_player nm : respects pending_grows (add_player nm).
Proof. unfold add_player. respects_by more_pending. Qed.

Lemma pending_get_player nm : respects pending_grows (get_player nm).
Proof. unfold get_player. respects_by more_pending. Qed.

Lemma pending_begin_game : respects pending_grows begin_game.
Proof. unfold begin_game. respects_by more_pending. Qed.

Lemma pending_draw_three_tiles : respects pending_grows draw_three_tiles.
Proof. unfold draw_three_tiles. respects_by more_pending. Qed.

Lemma pending_discard_tile tile : respects pending_grows (discard_tile tile).
Proof. unfold discard_tile. respects_by more_pending. Qed.

Lemma pending_advance_president : respects pending_grows advance_president.
Proof. unfold advance_president, get_president. respects_by more_pending. Qed.

Lemma pending_get_winner : respects pending_grows get_winner.
Proof. unfold get_winner. respects_by more_pending. Qed.

Lemma pending_get_current_presidential_power :
  respects pending_grows get_current_presidential_power.
Proof. unfold get_current_presidential_power. respects_by more_pending. Qed.

Lemma pending_get_full_state : respects pending_grows get_full_state.
Proof. unfold get_full_state. respects_by more_pending. Qed.

Lemma pending_extract_updates custom_updates :
  custom_updates ≠ Some (Iterator []) →
  respects pending_grows (extract_updates custom_updates).
Proof.
  intros Hsome w. rewrite extract_updates_run. unfold pending_grows.
  destruct custom_updates as [[[|p ps]|[|p ps]|[|]]|]; simpl; try done;
    destruct (elements (updates (board w))) eqn:Hel; simpl; try done;
    apply elements_empty_inv in Hel; set_solver.
Qed.

(** X8: the only call that can take a name out of the pending set is
    [extract_updates] given an iterator that yields nothing, which empties
    it.  After every other call, returned or raised, whatever was marked as
    updated before is still marked; so [extract_updates] without argument
    never clears a pending set that holds a name. *)
Theorem updates_shrink_only_by_empty_iterator (c : Call) (w : World) :
  updates (board w) ⊆ updates (board (step w c))
  ∨ (c = ExtractUpdates (Some (Iterator []))
     ∧ updates (board (step w c)) = ∅).
Proof.
  unfold step. destruct c; cbn [call]; unfold void;
    try (left;
         first [ apply pending_add_player | apply pending_begin_game
               | apply pending_draw_three_tiles | apply pending_discard_tile
               | apply pending_advance_president
               | apply (respects_bind pending_grows);
                   [|intros; apply (respects_ret pending_grows)] ];
         first [ apply pending_get_player | apply pending_get_winner
               | apply pending_get_current_presidential_power
               | apply pending_get_full_state ]).
  destruct (decide (custom_updates = Some (Iterator []))) as [->|Hother].
  - right. split; [done|]. unfold mbind, Py_bind.
    by rewrite extract_updates_run.
  - left. apply (respects_bind pending_grows);
      [by apply pending_extract_updates
      |intros; apply (respects_ret pending_grows)].
Qed.

(** X9: [discard_tile] raises [NonexistentTileError] exactly when the tile
    is not in the drawn pile, and then changes nothing, the pending set
    included; with the tile drawn it returns, the discard pile gains that
    tile at its end and the unused pile is untouched. *)
Theorem discard_tile_checks_first (tile : Tile) (w : World) :
  ((tile ∉ drawn_tiles (board w))
   ∧ discard_tile tile w = (Raise (NonexistentTileError tile), w))
  ∨ (tile ∈ drawn_tiles (board w)
     ∧ ∃ w', discard_tile tile w = (Return tt, w')
         ∧ discarded_tiles (board w') = discarded_tiles (board w) ++ [tile]
         ∧ unused_tiles (board w') = unused_tiles (board w)).
Proof.
  destruct (decide (tile ∈ drawn_tiles (board w))) as [Hin|Hout].
  - right. split; [done|].
    destruct (discard_tile_present tile w Hin) as (w' & Hrun & Hun & Hdisc & _).
    by exists w'.
  - left. split; [done|]. by apply discard_tile_absent.
Qed.

(** *** Starting the game *)

(** The table has an entry for five to ten players; the roles of an entry
    are as many as the players, and its power track has six slots. *)
Lemma config_entry n num_liberals num_fascists powers :
  NUM_PLAYERS_TO_BOARD_CONFIG n = Some (num_liberals, num_fascists, powers) →
  (5 ≤ n ≤ 10)%nat
  ∧ length (roles_of num_liberals num_fascists) = n
  ∧ length powers = 6.
Proof.
  intros Hentry. unfold roles_of.
  rewrite !length_app, !length_replicate. simpl.
  do 11 (destruct n as [|n];
         [try done; injection Hentry as <- <- <-; simpl; lia|]).
  done.
Qed.

Lemma config_missing n :
  NUM_PLAYERS_TO_BOARD_CONFIG n = None ↔ ¬ (5 ≤ n ≤ 10)%nat.
Proof.
  split.
  - intros Hnone Hrange.
    do 11 (destruct n as [|n]; [try done; lia|]). lia.
  - intros Hout.
    do 11 (destruct n as [|n]; [try done; lia|]). done.
Qed.

Lemma set_players_twice v v' b :
  set_players v (set_players v' b) = set_players v b.
Proof. by destruct b. Qed.

Lemma set_players_same w :
  mkWorld (set_players (players (board w)) (board w)) (rng w) = w.
Proof. destruct w as [b g]. by destruct b. Qed.

(** The loop of [begin_game] over seats that all have a role. *)
Lemma assign_loop identities m : ∀ k w,
  (k + m ≤ length identities)%nat →
  for_each (seq k m)
    (λ (_ : unit) i,
       match identities !! i with
       | None => raise IndexError
       | Some r =>
           modify_self (λ b,
             set_players (alter (set_identity r) i (players b)) b)
       end) tt w
  = (Return tt,
     mkWorld
       (set_players (assigned identities (seq k m) (players (board w)))
          (board w))
       (rng w)).
Proof.
  induction m as [|m IH]; intros k w Hlen; simpl.
  - unfold assigned. simpl. by rewrite set_players_same.
  - destruct (lookup_lt_is_Some_2 identities k) as [r Hr]; [lia|].
    py_simpl. rewrite Hr. simpl. rewrite IH by lia. simpl.
    rewrite set_players_twice. unfold assigned. simpl.
    assert (Hsame : assign identities k = set_identity r).
    { unfold assign. by rewrite Hr. }
    by rewrite Hsame.
Qed.

Lemma lookup_assigned identities m : ∀ k (ps : list Player) j,
  assigned identities (seq k m) ps !! j =
    if decide (k ≤ j < k + m)%nat then assign identities j <$> ps !! j
    else ps !! j.
Proof.
  unfold assigned.
  induction m as [|m IH]; intros k ps j; simpl.
  - by rewrite decide_False by lia.
  - rewrite IH. destruct (decide (j = k)) as [->|Hne].
    + rewrite decide_False by lia. rewrite decide_True by lia.
      apply list_lookup_alter_eq.
    + rewrite list_lookup_alter_ne by done.
      destruct (decide (S k ≤ j < S k + m)%nat).
      * by rewrite decide_True by lia.
      * by rewrite decide_False by lia.
Qed.

(** With a role for every seat, the loop deals the roles in seat order and
    leaves names and ids alone. *)
Lemma assigned_all identities (ps : list Player) :
  length identities = length ps →
  identity <$> assigned identities (seq 0 (length ps)) ps = Some <$> identities
  ∧ name <$> assigned identities (seq 0 (length ps)) ps = name <$> ps
  ∧ id <$> assigned identities (seq 0 (length ps)) ps = id <$> ps.
Proof.
  intros Hlen.
  assert (Hseat : ∀ j p, ps !! j = Some p →
            ∃ r, identities !! j = Some r
              ∧ assigned identities (seq 0 (length ps)) ps !! j
                = Some (set_identity r p)).
  { intros j p Hp. pose proof (lookup_lt_Some _ _ _ Hp) as Hj.
    destruct (lookup_lt_is_Some_2 identities j) as [r Hr]; [lia|].
    exists r. split; [done|].
    rewrite lookup_assigned, decide_True, Hp by lia. simpl.
    unfold assign. by rewrite Hr. }
  assert (Hnone : ∀ j, ps !! j = None →
            identities !! j = None
            ∧ assigned identities (seq 0 (length ps)) ps !! j = None).
  { intros j Hp. apply lookup_ge_None in Hp. split.
    - apply lookup_ge_None. lia.
    - by rewrite lookup_assigned, decide_False, lookup_ge_None_2 by lia. }
  repeat split; apply list_eq; intros j; rewrite !list_lookup_fmap;
    destruct (ps !! j) as [p|] eqn:Hp;
    try (destruct (Hseat j p Hp) as (r & Hr & ->); by rewrite ?Hr);
    destruct (Hnone j Hp) as [Hr ->]; by rewrite ?Hr.
Qed.

(** [begin_game] with a roster size the table has. *)
Lemma begin_game_run w num_liberals num_fascists powers :
  NUM_PLAYERS_TO_BOARD_CONFIG (length (players (board w)))
    = Some (num_liberals, num_fascists, powers) →
  begin_game w =
    (Return tt,
     mkWorld
       (set_fascist_powers (Some powers)
          (set_players
             (assigned
                (shuffle (roles_of num_liberals num_fascists) (rng w)).1
                (seq 0 (length (players (board w))))
                (players (board w)))
             (set_updates
                ({["fascist_powers"]} ∪ ({["players"]} ∪ updates (board w)))
                (board w))))
       (shuffle (roles_of num_liberals num_fascists) (rng w)).2).
Proof.
  intros Hentry. pose proof (config_entry _ _ _ _ Hentry) as (_ & Hroles & _).
  destruct w as [b g]. unfold begin_game. py_simpl.
  rewrite load_global_bound by apply config_bound. simpl. rewrite Hentry.
  fold (roles_of num_liberals num_fascists).
  rewrite assign_loop by (simpl; rewrite shuffle_length; lia).
  done.
Qed.

(** X1: with a roster size the table has, [begin_game] returns; the roles
    it deals to the seats are, as a multiset, the liberals and fascists of
    the table entry and one Hitler; names and ids stay as they were, the
    power track of the entry is bound, and the deck is not touched. *)
Theorem begin_game_assigns_roles (w : World)
    (num_liberals num_fascists : nat)
    (powers : list (option PresidentialPower)) :
  NUM_PLAYERS_TO_BOARD_CONFIG (length (players (board w)))
    = Some (num_liberals, num_fascists, powers) →
  ∃ w', begin_game w = (Return tt, w')
    ∧ identity <$> players (board w')
        ≡ₚ Some <$> (replicate num_liberals LIBERAL
                     ++ replicate num_fascists FASCIST ++ [HITLER])
    ∧ name <$> players (board w') = name <$> players (board w)
    ∧ id <$> players (board w') = id <$> players (board w)
    ∧ fascist_powers (board w') = Some powers
    ∧ deck_view (board w') = deck_view (board w).
Proof.
  intros Hentry. pose proof (config_entry _ _ _ _ Hentry) as (_ & Hroles & _).
  rewrite (begin_game_run _ _ _ _ Hentry).
  eexists. split; [reflexivity|]. simpl.
  destruct (assigned_all
              (shuffle (roles_of num_liberals num_fascists) (rng w)).1
              (players (board w))) as (Hids & Hnames & Hseats).
  { rewrite shuffle_length. lia. }
  rewrite Hids, Hnames, Hseats. repeat split.
  by rewrite shuffle_perm.
Qed.

(** X2: [begin_game] returns exactly when five to ten players are seated.
    With any other roster size it raises [InvalidNumPlayersError] with that
    size and leaves roster, power track and deck as they were; it raises
    nothing else. *)
Theorem begin_game_player_count (w : World) :
  ((5 ≤ length (players (board w)) ≤ 10)%nat
   ∧ (begin_game w).1 = Return tt)
  ∨ (¬ (5 ≤ length (players (board w)) ≤ 10)%nat
     ∧ (begin_game w).1
         = Raise (InvalidNumPlayersError (length (players (board w))))
     ∧ players (board (begin_game w).2) = players (board w)
     ∧ fascist_powers (board (begin_game w).2) = fascist_powers (board w)
     ∧ deck_view (board (begin_game w).2) = deck_view (board w)).
Proof.
  destruct (NUM_PLAYERS_TO_BOARD_CONFIG (length (players (board w))))
    as [[[num_liberals num_fascists] powers]|] eqn:Hentry.
  - left. pose proof (config_entry _ _ _ _ Hentry) as (Hrange & _).
    by rewrite (begin_game_run _ _ _ _ Hentry).
  - right. rewrite (begin_game_invalid _ Hentry).
    by apply config_missing in Hentry.
Qed.

(** *** The roster along a game *)

Lemma fmap_alter_same {A B} (f : A → B) (g : A → A) (l : list A) i :
  (∀ x, f (g x) = f x) → f <$> alter g i l = f <$> l.
Proof.
  intros Hfg. revert i.
  induction l as [|x l IH]; intros [|i]; csimpl; try done.
  - by rewrite Hfg.
  - by rewrite IH.
Qed.

Ltac same_seating :=
  unfold same_on, seating_view; simpl;
  rewrite ?(fmap_alter_same name), ?(fmap_alter_same id) by done; done.

Lemma seating_get_player nm : respects (same_on seating_view) (get_player nm).
Proof. unfold get_player. respects_by same_seating. Qed.

Lemma seating_begin_game : respects (same_on seating_view) begin_game.
Proof. unfold begin_game. respects_by same_seating. Qed.

Lemma seating_draw_three_tiles :
  respects (same_on seating_view) draw_three_tiles.
Proof. unfold draw_three_tiles. respects_by same_seating. Qed.

Lemma seating_discard_tile tile :
  respects (same_on seating_view) (discard_tile tile).
Proof. unfold discard_tile. respects_by same_seating. Qed.

Lemma seating_advance_president :
  respects (same_on seating_view) advance_president.
Proof.
  intros w.
  destruct (py_index (players (board w)) (president_id (board w)))
    as [p|] eqn:Hp.
  - by rewrite (advance_president_run w p Hp).
  - by rewrite (advance_president_vacant w Hp).
Qed.

Lemma seating_get_winner : respects (same_on seating_view) get_winner.
Proof. unfold get_winner. respects_by same_seating. Qed.

Lemma seating_get_current_presidential_power :
  respects (same_on seating_view) get_current_presidential_power.
Proof. unfold get_current_presidential_power. respects_by same_seating. Qed.

Lemma seating_extract_updates custom_updates :
  respects (same_on seating_view) (extract_updates custom_updates).
Proof. unfold extract_updates, extract_one. respects_by same_seating. Qed.

Lemma seating_get_full_state : respects (same_on seating_view) get_full_state.
Proof. unfold get_full_state. respects_by same_seating. Qed.

Lemma roster_ok_seating b b' :
  seating_view b = seating_view b' → roster_ok b → roster_ok b'.
Proof.
  unfold seating_view, roster_ok. intros [= Hnames Hids Hout Hpres].
  assert (Hlen : length (players b') = length (players b)).
  { by rewrite <- (length_fmap name (players b')), <- Hnames, length_fmap. }
  rewrite <- Hnames, <- Hids, <- Hout, <- Hpres, Hlen. done.
Qed.

Lemma roster_ok_add_player nm w :
  roster_ok (board w) → roster_ok (board (add_player nm w).2).
Proof.
  intros (Hnames & Hids & Hout & Hpres). rewrite add_player_run. simpl.
  destruct (existsb _ (players (board w))) eqn:Hdup; simpl; [done|].
  assert (Hnew : nm ∉ name <$> players (board w)).
  { intros Hin. apply existsb_name in Hin. congruence. }
  unfold roster_ok. simpl.
  rewrite !fmap_app, length_app, Hids. simpl.
  repeat split; try done.
  - apply NoDup_app. repeat split; [done| |apply NoDup_singleton].
    intros x Hx ->%list_elem_of_singleton. done.
  - by rewrite Nat.add_1_r, seq_S, fmap_app.
Qed.

Lemma roster_ok_step c w :
  roster_ok (board w) → roster_ok (board (step w c)).
Proof.
  intros Hok. unfold step.
  assert (Hseating : ∀ m : Py unit, respects (same_on seating_view) m →
            roster_ok (board (m w).2)).
  { intros m Hm. by eapply roster_ok_seating; [apply Hm|]. }
  assert (Hvoid : ∀ A (m : Py A), respects (same_on seating_view) m →
            respects (same_on seating_view) (void m)).
  { intros A m Hm. unfold void. apply respects_bind; [tc_solve|done|].
    intros. apply respects_ret. tc_solve. }
  destruct c; cbn [call].
  - by apply roster_ok_add_player.
  - apply Hseating, Hvoid, seating_get_player.
  - apply Hseating, seating_begin_game.
  - apply Hseating, seating_draw_three_tiles.
  - apply Hseating, seating_discard_tile.
  - apply Hseating, seating_advance_president.
  - apply Hseating, Hvoid, seating_get_winner.
  - apply Hseating, Hvoid, seating_get_current_presidential_power.
  - apply Hseating, Hvoid, seating_extract_updates.
  - apply Hseating, Hvoid, seating_get_full_state.
Qed.

Lemma roster_ok_reachable (cs : list Call) (g : Rng) :
  roster_ok (board (run cs (Board_init g))).
Proof.
  assert (Hrun : ∀ w, roster_ok (board w) → roster_ok (board (run cs w))).
  { unfold run. induction cs as [|c cs IH]; intros w Hok; simpl; [done|].
    by apply IH, roster_ok_step. }
  apply Hrun. unfold roster_ok. simpl. repeat split. apply NoDup_nil_2.
Qed.

(** X3: on every board reached from a fresh one by any sequence of calls,
    the active players have distinct names, the id of each is its seat,
    nobody is eliminated and the president index is 0. *)
Theorem roster_invariant (cs : list Call) (g : Rng) :
  NoDup (name <$> players (board (run cs (Board_init g))))
  ∧ id <$> players (board (run cs (Board_init g)))
    = Z.of_nat <$> seq 0 (length (players (board (run cs (Board_init g)))))
  ∧ eliminated_players (board (run cs (Board_init g))) = []
  ∧ president_id (board (run cs (Board_init g))) = 0%Z.
Proof. exact (roster_ok_reachable cs g). Qed.


(** *** Tiles by kind *)

Lemma count_kind_app t l1 l2 :
  count_kind t (l1 ++ l2) = count_kind t l1 + count_kind t l2.
Proof. unfold count_kind. by rewrite filter_app, length_app. Qed.

Lemma count_kind_perm t l1 l2 : l1 ≡ₚ l2 → count_kind t l1 = count_kind t l2.
Proof. intros Hperm. unfold count_kind. by rewrite Hperm. Qed.

Lemma count_kind_take_drop t n l :
  count_kind t (take n l) + count_kind t (drop n l) = count_kind t l.
Proof. by rewrite <- count_kind_app, take_drop. Qed.

Lemma py_remove_perm (x : Tile) l : x ∈ l → l ≡ₚ x :: py_remove x l.
Proof.
  induction l as [|y l IH]; intros Hin; [by apply elem_of_nil in Hin|].
  simpl. destruct (decide (x = y)) as [->|Hne]; [done|].
  apply elem_of_cons in Hin as [?|Hin]; [done|].
  rewrite (IH Hin) at 1. apply Permutation_swap.
Qed.

Lemma kind_total_deck_view t b b' :
  deck_view b = deck_view b' → kind_total t b = kind_total t b'.
Proof.
  unfold deck_view, kind_total, progress_of.
  by intros [= -> -> -> _ -> ->].
Qed.

Ltac same_deck := by unfold same_on.

Lemma deck_add_player nm : respects (same_on deck_view) (add_player nm).
Proof. unfold add_player. respects_by same_deck. Qed.

Lemma deck_get_player nm : respects (same_on deck_view) (get_player nm).
Proof. unfold get_player. respects_by same_deck. Qed.

Lemma deck_begin_game : respects (same_on deck_view) begin_game.
Proof. unfold begin_game. respects_by same_deck. Qed.

Lemma deck_advance_president : respects (same_on deck_view) advance_president.
Proof. unfold advance_president, get_president. respects_by same_deck. Qed.

Lemma deck_get_winner : respects (same_on deck_view) get_winner.
Proof. unfold get_winner. respects_by same_deck. Qed.

Lemma deck_get_current_presidential_power :
  respects (same_on deck_view) get_current_presidential_power.
Proof. unfold get_current_presidential_power. respects_by same_deck. Qed.

Lemma deck_extract_updates custom_updates :
  respects (same_on deck_view) (extract_updates custom_updates).
Proof. unfold extract_updates, extract_one. respects_by same_deck. Qed.

Lemma deck_get_full_state : respects (same_on deck_view) get_full_state.
Proof. unfold get_full_state. respects_by same_deck. Qed.

(** The tiles of a kind a call takes out of the game without enacting
    them: those a draw finds in the drawn pile. *)
Lemma kind_total_step t c w :
  kind_total t (board (step w c)) =
    (kind_total t (board w)
     - match c with
       | DrawThreeTiles => Z.of_nat (count_kind t (drawn_tiles (board w)))
       | _ => 0
       end)%Z.
Proof.
  unfold step.
  assert (Hsame : ∀ m : Py unit, respects (same_on deck_view) m →
            kind_total t (board (m w).2) = (kind_total t (board w) - 0)%Z).
  { intros m Hm. rewrite <- (kind_total_deck_view t _ _ (Hm w)). lia. }
  assert (Hvoid : ∀ A (m : Py A), respects (same_on deck_view) m →
            respects (same_on deck_view) (void m)).
  { intros A m Hm. unfold void. apply respects_bind; [tc_solve|done|].
    intros. apply respects_ret. tc_solve. }
  destruct c; cbn [call].
  - apply Hsame, deck_add_player.
  - apply Hsame, Hvoid, deck_get_player.
  - apply Hsame, deck_begin_game.
  - destruct (draw_three_tiles_run w)
      as (w' & -> & Hdrawn & Hunused & Hdisc & Hlib & Hfas & _).
    simpl. unfold kind_total.
    assert (Hprog : progress_of t (board w') = progress_of t (board w)).
    { by destruct t. }
    rewrite Hprog, Hdrawn, Hunused, Hdisc, !count_kind_app.
    pose proof (count_kind_take_drop t 3 (draw_pool w)) as Hpool.
    unfold draw_pool in *.
    destruct (decide (length (unused_tiles (board w)) < 3)%nat).
    + rewrite count_kind_app in Hpool.
      rewrite (count_kind_perm t _ _ (shuffle_perm _ _ _)) in Hpool.
      change (count_kind t []) with 0%nat. lia.
    + lia.
  - destruct (decide (tile ∈ drawn_tiles (board w))) as [Hin|Hout].
    + pose proof (count_kind_perm t _ _ (py_remove_perm tile _ Hin)) as Hcount.
      destruct (discard_tile_present tile w Hin)
        as (w' & -> & Hunused & Hdisc & Hrest).
      simpl. unfold kind_total. rewrite Hunused, Hdisc, !count_kind_app.
      change (tile :: py_remove tile (drawn_tiles (board w)))
        with ([tile] ++ py_remove tile (drawn_tiles (board w))) in Hcount.
      rewrite count_kind_app in Hcount.
      destruct (py_remove tile (drawn_tiles (board w)))
        as [|policy [|second rest]].
      * destruct Hrest as (-> & _ & Hlib & Hfas).
        destruct t; simpl; rewrite ?Hlib, ?Hfas; lia.
      * destruct Hrest as (-> & _ & Hlib & Hfas).
        unfold count_kind in *.
        destruct t, policy, tile; simpl in *; rewrite ?Hlib, ?Hfas; simpl; lia.
      * destruct Hrest as (-> & _ & Hlib & Hfas).
        destruct t; simpl; rewrite ?Hlib, ?Hfas; lia.
    + rewrite discard_tile_absent by done. simpl. lia.
  - apply Hsame, deck_advance_president.
  - apply Hsame, Hvoid, deck_get_winner.
  - apply Hsame, Hvoid, deck_get_current_presidential_power.
  - apply Hsame, Hvoid, deck_extract_updates.
  - apply Hsame, Hvoid, deck_get_full_state.
Qed.

Lemma Board_init_kinds g :
  kind_total LIBERAL_POLICY (board (Board_init g)) = 6%Z
  ∧ kind_total FASCIST_POLICY (board (Board_init g)) = 11%Z.
Proof.
  unfold kind_total, Board_init. simpl. rewrite !app_nil_r.
  by rewrite !(count_kind_perm _ _ _ (shuffle_perm _ _ _)).
Qed.

(** X10: no sequence of calls on a fresh board ever makes a tile: the
    Liberal tiles in the three piles plus [liberal_progress] never exceed 6,
    the Fascist ones plus [fascist_progress] never exceed 11; so
    [liberal_progress] stays at or below 6 and [fascist_progress] at or
    below 11. *)
Theorem tiles_never_created (cs : list Call) (g : Rng) :
  (kind_total LIBERAL_POLICY (board (run cs (Board_init g))) ≤ 6)%Z
  ∧ (kind_total FASCIST_POLICY (board (run cs (Board_init g))) ≤ 11)%Z
  ∧ (liberal_progress (board (run cs (Board_init g))) ≤ 6)%Z
  ∧ (fascist_progress (board (run cs (Board_init g))) ≤ 11)%Z.
Proof.
  assert (Hrun : ∀ t w,
            (kind_total t (board (run cs w)) ≤ kind_total t (board w))%Z).
  { intros t. unfold run.
    induction cs as [|c cs IH]; intros w; simpl; [lia|].
    etrans; [apply IH|]. rewrite kind_total_step. destruct c; lia. }
  destruct (Board_init_kinds g) as [Hlib Hfas].
  pose proof (Hrun LIBERAL_POLICY (Board_init g)) as Hl.
  pose proof (Hrun FASCIST_POLICY (Board_init g)) as Hf.
  rewrite Hlib in Hl. rewrite Hfas in Hf.
  repeat split; try done; unfold kind_total, progress_of in *; lia.
Qed.

(** X11: along every sequence of calls on a fresh board in which each draw
    finds the drawn pile empty, tiles are conserved kind by kind: the
    Liberal tiles in the three piles plus [liberal_progress] are 6, the
    Fascist ones plus [fascist_progress] are 11. *)
Theorem tiles_conserved_by_kind (cs : list Call) (g : Rng) :
  draws_on_empty cs (Board_init g) = true →
  kind_total LIBERAL_POLICY (board (run cs (Board_init g))) = 6%Z
  ∧ kind_total FASCIST_POLICY (board (run cs (Board_init g))) = 11%Z.
Proof.
  intros Hempty.
  assert (Hrun : ∀ t w, draws_on_empty cs w = true →
            kind_total t (board (run cs w)) = kind_total t (board w)).
  { intros t. unfold run. clear Hempty.
    induction cs as [|c cs IH]; intros w Hempty; simpl in *; [done|].
    apply andb_true_iff in Hempty as [Hhere Hlater].
    rewrite (IH _ Hlater), kind_total_step.
    destruct c; try lia.
    apply bool_decide_eq_true in Hhere. rewrite Hhere.
    unfold count_kind. simpl. lia. }
  destruct (Board_init_kinds g) as [Hlib Hfas].
  by rewrite !Hrun, Hlib, Hfas.
Qed.

(** *** A legislative session *)

(** X12: a whole session.  On a board whose unused and discard piles hold
    three tiles or more, a draw followed by the discard of one drawn tile
    and of one of the two left raises nothing and enacts the third tile: it
    becomes [latest_policy], the counter of its kind grows by one and the
    other stays, the drawn pile ends empty and the two discarded tiles end
    on the discard pile in the order they were discarded. *)
Theorem legislative_session (w : World) (first second : Tile) :
  (3 ≤ length (unused_tiles (board w)) + length (discarded_tiles (board w)))%nat →
  first ∈ take 3 (draw_pool w) →
  second ∈ py_remove first (take 3 (draw_pool w)) →
  ∃ policy w',
    py_remove second (py_remove first (take 3 (draw_pool w))) = [policy]
    ∧ (draw_three_tiles ≫= λ _, discard_tile first ≫= λ _, discard_tile second) w
      = (Return tt, w')
    ∧ drawn_tiles (board w') = []
    ∧ unused_tiles (board w') = drop 3 (draw_pool w)
    ∧ discarded_tiles (board w') =
        (if decide (length (unused_tiles (board w)) < 3)%nat
         then [] else discarded_tiles (board w)) ++ [first; second]
    ∧ latest_policy (board w') = Some policy
    ∧ progress_of policy (board w') = (progress_of policy (board w) + 1)%Z
    ∧ (liberal_progress (board w') + fascist_progress (board w')
       = liberal_progress (board w) + fascist_progress (board w) + 1)%Z.
Proof.
  intros Hpool Hfirst Hsecond.
  destruct (draw_three_tiles_run w)
    as (w1 & Hrun1 & Hdrawn1 & Hunused1 & Hdisc1 & Hlib1 & Hfas1 & _).
  assert (Hthree : length (take 3 (draw_pool w)) = 3%nat).
  { rewrite length_take.
    destruct (draw_pool_length w) as [[Hge Hlen]|[Hlt Hlen]]; lia. }
  rewrite <- Hdrawn1 in *.
  pose proof (py_remove_length first _ Hfirst) as Hlen1.
  destruct (discard_tile_present first w1 Hfirst)
    as (w2 & Hrun2 & Hunused2 & Hdisc2 & Hrest2).
  destruct (py_remove first (drawn_tiles (board w1)))
    as [|a [|b [|c rest]]] eqn:Hleft; simpl in Hlen1; try lia.
  destruct Hrest2 as (Hdrawn2 & Hlatest2 & Hlib2 & Hfas2).
  rewrite <- Hdrawn2 in Hsecond.
  pose proof (py_remove_length second _ Hsecond) as Hlen2.
  destruct (discard_tile_present second w2 Hsecond)
    as (w3 & Hrun3 & Hunused3 & Hdisc3 & Hrest3).
  rewrite Hdrawn2 in *.
  destruct (py_remove second [a; b]) as [|policy [|c rest]] eqn:Hlast;
    simpl in Hlen2; try lia.
  destruct Hrest3 as (Hdrawn3 & Hlatest3 & Hlib3 & Hfas3).
  exists policy, w3. split; [done|]. split.
  { unfold mbind, Py_bind. by rewrite Hrun1, Hrun2, Hrun3. }
  rewrite Hdrawn3, Hunused3, Hunused2, Hunused1, Hdisc3, Hdisc2, Hdisc1,
    Hlatest3, <- app_assoc.
  unfold progress_of.
  repeat split; destruct policy; simpl in *; lia.
Qed.

(** *** Presidential powers *)

Lemma config_track n num_liberals num_fascists powers :
  NUM_PLAYERS_TO_BOARD_CONFIG n = Some (num_liberals, num_fascists, powers) →
  ∃ first second third,
    powers = [first; second; third; Some EXECUTION; Some EXECUTION; None].
Proof.
  intros Hentry.
  do 11 (destruct n as [|n];
         [try done; injection Hentry as <- <- <-; by eexists _, _, _|]).
  done.
Qed.

(** X13: with the power track of a table entry bound and a Fascist policy
    enacted last, [get_current_presidential_power] answers the slot of the
    track at [fascist_progress - 1] for a progress of 1 to 6: an execution
    at 4 and at 5 and no power at 6, whatever the player count.  Past 6 it
    raises [IndexError].  It never writes. *)
Theorem presidential_power_on_track (w : World) (n : nat)
    (num_liberals num_fascists : nat)
    (powers : list (option PresidentialPower)) :
  NUM_PLAYERS_TO_BOARD_CONFIG n = Some (num_liberals, num_fascists, powers) →
  fascist_powers (board w) = Some powers →
  latest_policy (board w) = Some FASCIST_POLICY →
  (1 ≤ fascist_progress (board w))%Z →
  ((fascist_progress (board w) ≤ 6)%Z
   ∧ ∃ power,
       get_current_presidential_power w = (Return power, w)
       ∧ powers !! Z.to_nat (fascist_progress (board w) - 1) = Some power
       ∧ (fascist_progress (board w) = 4%Z ∨ fascist_progress (board w) = 5%Z →
          power = Some EXECUTION)
       ∧ (fascist_progress (board w) = 6%Z → power = None))
  ∨ ((6 < fascist_progress (board w))%Z
     ∧ get_current_presidential_power w = (Raise IndexError, w)).
Proof.
  intros Hentry Hbound Hlatest Hpos.
  destruct (config_track _ _ _ _ Hentry) as (p1 & p2 & p3 & ->).
  destruct w as [b g]. unfold get_current_presidential_power. py_simpl.
  rewrite Hbound, Hlatest. simpl.
  try rewrite decide_False by (intros Hne; by apply Hne).
  rewrite decide_False by lia.
  unfold py_index. simpl.
  destruct (0 <=? fascist_progress b - 1)%Z eqn:Hsign;
    [|apply Z.leb_gt in Hsign; lia].
  destruct (decide (fascist_progress b ≤ 6)%Z) as [Hle|Hgt].
  - left. split; [done|].
    assert (Hcases : fascist_progress b = 1%Z ∨ fascist_progress b = 2%Z
                     ∨ fascist_progress b = 3%Z ∨ fascist_progress b = 4%Z
                     ∨ fascist_progress b = 5%Z ∨ fascist_progress b = 6%Z)
      by lia.
    destruct Hcases as [-> | [-> | [-> | [-> | [-> | ->]]]]]; simpl;
      eexists; (split; [reflexivity|]); repeat split; intros; try done; lia.
  - right. split; [lia|].
    rewrite lookup_ge_None_2; [done|]. simpl. lia.
Qed.

End Properties.

(** ** The runs, evaluated *)

Example begin_game_seven :
  (begin_game seven_seated).1 = Return tt
  ∧ identity <$> players (board (begin_game seven_seated).2)
    = [Some FASCIST; Some HITLER; Some LIBERAL; Some LIBERAL;
       Some LIBERAL; Some LIBERAL; Some FASCIST].
Proof. by vm_compute. Qed.

(** The role dealt to the first seat by [begin_game] is seen through the
    reference [advance_president] stored before. *)
Example role_seen_through_prev_president :
  prev_president (board begun_after_succession) = Some 0%nat
  ∧ the_player (board begun_after_succession)
      (prev_president (board begun_after_succession))
    = players (board begun_after_succession) !! 0%nat
  ∧ identity <$> the_player (board begun_after_succession)
                   (prev_president (board begun_after_succession))
    = Some (Some FASCIST).
Proof. by vm_compute. Qed.

(** An iterator that yields nothing empties a pending set that held a
    name. *)
Example empty_iterator_clears_pending :
  elements (updates (board (step fresh_board (AddPlayer "ann")))) = ["players"]
  ∧ elements (updates (board extracted_for_nothing)) = [].
Proof. by vm_compute. Qed.

Example fresh_unused_head :
  take 3 (unused_tiles (board fresh_board))
  = [LIBERAL_POLICY; LIBERAL_POLICY; FASCIST_POLICY].
Proof. reflexivity. Qed.

(** C1, as stated, fails: after a draw on top of a draw the three piles hold
    14 tiles and nothing has been enacted. *)
Lemma redraw_loses_tiles :
  forallb is_deck_call redraw = true
  ∧ tiles_in_piles (run redraw fresh_board)
    + enacted_count redraw fresh_board = 14
  ∧ (liberal_progress (board (run redraw fresh_board))
     + fascist_progress (board (run redraw fresh_board)) = 0)%Z.
Proof. by vm_compute. Qed.

Lemma tile_conservation_witness :
  tiles_in_piles (run session fresh_board)
  + enacted_count session fresh_board = 17
  ∧ Z.of_nat (enacted_count session fresh_board) =
      (liberal_progress (board (run session fresh_board))
       + fascist_progress (board (run session fresh_board)))%Z.
Proof.
  apply (@tile_conservation rotating session 4); vm_compute; reflexivity.
Defined.

(** C5, as stated, fails: with two tiles left in the two piles together a
    draw returns, and the drawn pile holds those two tiles. *)
Lemma draw_from_two_tiles_returns :
  length (unused_tiles (board nearly_empty))
  + length (discarded_tiles (board nearly_empty)) = 2
  ∧ (draw_three_tiles nearly_empty).1 = Return tt
  ∧ length (drawn_tiles (board (draw_three_tiles nearly_empty).2)) = 2.
Proof. by vm_compute. Qed.

Lemma discard_tile_enactment_witness :
  LIBERAL_POLICY ∈ drawn_tiles (board two_left)
  ∧ ∃ w', discard_tile LIBERAL_POLICY two_left = (Return tt, w')
      ∧ drawn_tiles (board w') = []
      ∧ latest_policy (board w') = Some FASCIST_POLICY
      ∧ liberal_progress (board w') = 0%Z
      ∧ fascist_progress (board w') = 1%Z.
Proof.
  assert (Hin : LIBERAL_POLICY ∈ drawn_tiles (board two_left)).
  { vm_compute. apply list_elem_of_here. }
  split; [exact Hin|].
  destruct (@discard_tile_enactment rotating LIBERAL_POLICY two_left Hin)
    as (w' & Hrun & Hone & _).
  assert (Hleft : py_remove LIBERAL_POLICY (drawn_tiles (board two_left))
                  = [FASCIST_POLICY]) by (vm_compute; reflexivity).
  destruct Hone as (policy & Hrest & Hlatest & Hdrawn & Hlib & Hfas).
  { by rewrite Hleft. }
  rewrite Hleft in Hrest. injection Hrest as <-.
  exists w'. repeat split; [exact Hrun|exact Hdrawn|exact Hlatest| |].
  - rewrite Hlib. vm_compute. reflexivity.
  - rewrite Hfas. vm_compute. reflexivity.
Defined.

(** C9, as stated, fails: with [fascist_progress] at 6 and
    [liberal_progress] at 5 the winner is Liberal, not Fascist. *)
Lemma get_winner_prefers_liberal :
  fascist_progress (board both_tracks_full) = 6%Z
  ∧ (get_winner both_tracks_full).1 = Return (Some LIBERAL_POLICY).
Proof. by vm_compute. Qed.

#[local] Existing Instances Py_ret Py_bind.

Lemma begin_game_assigns_roles_witness :
  ∃ w', begin_game seven_seated = (Return tt, w')
    ∧ identity <$> players (board w')
        ≡ₚ Some <$> [LIBERAL; LIBERAL; LIBERAL; LIBERAL; FASCIST; FASCIST; HITLER]
    ∧ name <$> players (board w')
      = ["ann"; "ben"; "cat"; "dan"; "eve"; "fay"; "gus"].
Proof.
  destruct (@begin_game_assigns_roles rotating seven_seated 4 2
              [None; Some INVESTIGATE_LOYALTY; Some CALL_SPECIAL_ELECTION;
               Some EXECUTION; Some EXECUTION; None])
    as (w' & Hrun & Hroles & Hnames & _).
  { vm_compute. reflexivity. }
  exists w'. split; [exact Hrun|]. split; [exact Hroles|].
  rewrite Hnames. vm_compute. reflexivity.
Defined.

Lemma get_player_after_add_player_witness :
  get_player "ann" (step fresh_board (AddPlayer "ann"))
  = (Return (Player_new 0 "ann"), step fresh_board (AddPlayer "ann")).
Proof.
  apply (proj1 (@get_player_after_add_player rotating "ann" fresh_board
                  (not_elem_of_nil "ann"))).
Defined.

Lemma tiles_conserved_by_kind_witness :
  kind_total LIBERAL_POLICY (board (run session fresh_board)) = 6%Z
  ∧ kind_total FASCIST_POLICY (board (run session fresh_board)) = 11%Z.
Proof.
  apply (@tiles_conserved_by_kind rotating session 4). vm_compute. reflexivity.
Defined.

Lemma legislative_session_witness :
  ∃ w',
    (draw_three_tiles ≫= λ _, discard_tile LIBERAL_POLICY
                      ≫= λ _, discard_tile LIBERAL_POLICY) fresh_board
    = (Return tt, w')
    ∧ drawn_tiles (board w') = []
    ∧ discarded_tiles (board w') = [LIBERAL_POLICY; LIBERAL_POLICY]
    ∧ latest_policy (board w') = Some FASCIST_POLICY
    ∧ fascist_progress (board w') = 1%Z.
Proof.
  destruct (@legislative_session rotating fresh_board
              LIBERAL_POLICY LIBERAL_POLICY)
    as (policy & w' & Hleft & Hrun & Hdrawn & _ & Hdisc & Hlatest & Hprog & _).
  { vm_compute. lia. }
  { vm_compute. apply list_elem_of_here. }
  { vm_compute. apply list_elem_of_here. }
  vm_compute in Hleft. injection Hleft as <-.
  exists w'. repeat split; [exact Hrun|exact Hdrawn| |exact Hlatest|].
  - rewrite Hdisc. vm_compute. reflexivity.
  - simpl in Hprog. rewrite Hprog. vm_compute. reflexivity.
Defined.

Lemma presidential_power_on_track_witness :
  fascist_progress (board first_fascist_enacted) = 1%Z
  ∧ get_current_presidential_power first_fascist_enacted
    = (Return None, first_fascist_enacted).
Proof.
  assert (Hone : fascist_progress (board first_fascist_enacted) = 1%Z)
    by (vm_compute; reflexivity).
  split; [exact Hone|].
  destruct (@presidential_power_on_track rotating first_fascist_enacted 7 4 2
              [None; Some INVESTIGATE_LOYALTY; Some CALL_SPECIAL_ELECTION;
               Some EXECUTION; Some EXECUTION; None])
    as [(_ & power & Hrun & Hslot & _)|[Hpast _]].
  - vm_compute. reflexivity.
  - vm_compute. reflexivity.
  - vm_compute. reflexivity.
  - rewrite Hone. lia.
  - rewrite Hone in Hslot. vm_compute in Hslot. injection Hslot as <-.
    exact Hrun.
  - rewrite Hone in Hpast. lia.
Defined.
